(** * Financial ETL pipeline: validators, distributed lock, warehouse loader

    A shallow embedding of
      - etl/validators/{base,completeness,accuracy,consistency,schema}.py
      - etl/utils/distributed_lock.py
      - etl/utils/db_connection.py and etl/loaders/{base,warehouse_loader}.py
    together with the properties stated about them.

    Python values are embedded as follows: [int] as [Z], [float] as the
    binary64 numbers of [PrimFloat], [str] as [string], [bool] as [bool], a
    list as [list], a dict iterated in insertion order as an association
    list, a [set] as [gset], the Redis keyspace as a [gmap].  A call that may
    raise returns an [outcome]; logging is a list of records returned next to
    the outcome.  The rounding to two decimals applied to percentages for
    display is left out, and the clock counts whole seconds. *)

From Stdlib Require Import ZArith Floats List String Ascii Bool Lia DecimalString.
From stdpp Require Import gmap strings list fin_maps.

Local Open Scope string_scope.
Local Open Scope list_scope.
Local Open Scope Z_scope.

(** ** Python exceptions, results and numbers *)

Module Py.

(** The exception classes that occur in the embedded code and in the
    libraries it calls.  [re_error] is [re.error], [ResponseError] is that of
    redis-py, [ProgrammingError], [IntegrityError] and [DataError] are those
    of psycopg2; [UserException] stands for any other subclass of
    [Exception].  The last three stand for the classes that derive from
    [BaseException] without deriving from [Exception]. *)
Inductive exn :=
| ValueError (msg : string)
| TypeError (msg : string)
| OverflowError (msg : string)
| RuntimeError (msg : string)
| AttributeError (msg : string)
| re_error (msg : string)
| ResponseError (msg : string)
| ProgrammingError (msg : string)
| IntegrityError (msg : string)
| DataError (msg : string)
| UserException (msg : string)
| KeyboardInterrupt
| SystemExit (code : string)
| UserBaseException (msg : string).

(** [isinstance(e, Exception)]: what a clause [except Exception] handles. *)
Definition is_exception (e : exn) : bool :=
  match e with
  | KeyboardInterrupt | SystemExit _ | UserBaseException _ => false
  | _ => true
  end.

Definition str_of_exn (e : exn) : string :=
  match e with
  | ValueError m | TypeError m | OverflowError m | RuntimeError m
  | AttributeError m | re_error m | ResponseError m | ProgrammingError m
  | IntegrityError m | DataError m | UserException m | SystemExit m
  | UserBaseException m => m
  | KeyboardInterrupt => ""
  end.

Inductive outcome (A : Type) :=
| Returned (a : A)
| Raised (e : exn).
Arguments Returned {A} a.
Arguments Raised {A} e.

Definition is_raised {A} (o : outcome A) : bool :=
  match o with Raised _ => true | Returned _ => false end.

(** The outcome of a call whose returned value is passed through [f]. *)
Definition outcome_map {A B} (f : A -> B) (o : outcome A) : outcome B :=
  match o with
  | Returned a => Returned (f a)
  | Raised e => Raised e
  end.

(** [str(n)] for an integer. *)
Definition str_of_int (z : Z) : string := NilZero.string_of_int (Z.to_int z).

(** [sep.join(l)]. *)
Fixpoint join (sep : string) (l : list string) : string :=
  match l with
  | [] => ""
  | [x] => x
  | x :: rest => x +:+ sep +:+ join sep rest
  end.

(** [a in b] for two strings. *)
Fixpoint contains (b a : string) : bool :=
  if String.prefix a b then true
  else match b with
       | EmptyString => false
       | String _ r => contains r a
       end.

(** *** Floating point

    A Python [float], and a [numpy.float64], is a binary64 number; its
    operations are those of IEEE 754, rounding to nearest, ties to even. *)

(** [float(n)]: the binary64 number nearest to the integer [n]. *)
Definition float_of_int (z : Z) : float :=
  SF2Prim (SpecFloat.binary_normalize prec emax z 0 false).

(** [int(x)]: truncation towards zero; it raises on a NaN and on an
    infinity. *)
Definition int_of_float (x : float) : outcome Z :=
  match Prim2SF x with
  | S754_zero _ => Returned 0
  | S754_finite negative m e =>
    let magnitude :=
      if Z.leb 0 e then Z.pos m * 2 ^ e else Z.pos m / 2 ^ (- e) in
    Returned (if negative then - magnitude else magnitude)
  | S754_infinity _ =>
    Raised (OverflowError "cannot convert float infinity to integer")
  | S754_nan => Raised (ValueError "cannot convert float NaN to integer")
  end.

(** [x > y], [x <= y] on floats; both are false when either side is a NaN. *)
Definition float_gt (x y : float) : bool := PrimFloat.ltb y x.
Definition float_le (x y : float) : bool := PrimFloat.leb x y.

(** [part / whole * 100] for two integers: a true division, giving a
    float.  (Counts are below [2 ^ 53], where the conversion of an integer
    to a float is exact.) *)
Definition percent (part whole : Z) : float :=
  PrimFloat.mul (PrimFloat.div (float_of_int part) (float_of_int whole))
    100%float.

End Py.
Export Py.

(** ** Datasets (the part of pandas the validators use) *)

Module Pandas.

Inductive value :=
| VInt (z : Z)
| VStr (s : string)
| VBool (b : bool).

(** A cell is a value or null ([None]/[NaN]). *)
Definition cell := option value.

#[export] Instance value_eq_dec : EqDecision value.
Proof. solve_decision. Defined.

Record Series := { dtype : string; cells : list cell }.

(** A DataFrame: the length of its index and its columns in order.  Every
    column of a pandas frame has the length of the index; the labels of the
    columns are taken to be distinct, so that [df[column]] is one column. *)
Record DataFrame := { index_len : nat; data : list (string * Series) }.

Definition well_formed (df : DataFrame) : Prop :=
  Forall (fun c => length (cells (snd c)) = index_len df) (data df).

Definition len (df : DataFrame) : Z := Z.of_nat (index_len df).
Definition columns (df : DataFrame) : list string := map fst (data df).

Fixpoint assoc {A} (k : string) (l : list (string * A)) : option A :=
  match l with
  | [] => None
  | (k', a) :: rest => if decide (k' = k) then Some a else assoc k rest
  end.

(** [df[column]], defined when [column in df.columns]. *)
Definition col (df : DataFrame) (c : string) : option Series := assoc c (data df).

Definition count_true (mask : list bool) : Z :=
  Z.of_nat (length (filter (fun b => b = true) mask)).

Definition invert (mask : list bool) : list bool := map negb mask.

(** [s.isnull()] and [s.isnull().sum()]. *)
Definition isnull (s : Series) : list bool :=
  map (fun c => match c with None => true | Some _ => false end) (cells s).
Definition null_count (s : Series) : Z := count_true (isnull s).

(** [df[mask][column]]: the cells of the rows selected by the mask. *)
Fixpoint select {A} (mask : list bool) (l : list A) : list A :=
  match mask, l with
  | b :: m, x :: r => if b then x :: select m r else select m r
  | _, _ => []
  end.

(** Values are hashed and compared as Python does: [True == 1] and
    [False == 0], and a null equals a null.  [py_key c] is the representative
    of the cells equal to [c]. *)
Definition py_key (c : cell) : cell :=
  match c with
  | Some (VBool b) => Some (VInt (if b then 1 else 0))
  | _ => c
  end.

(** [s.duplicated()]: true at every position whose value occurred earlier. *)
Fixpoint duplicated_from (seen : list cell) (l : list cell) : list bool :=
  match l with
  | [] => []
  | c :: r =>
    bool_decide (py_key c ∈ seen) :: duplicated_from (py_key c :: seen) r
  end.
Definition duplicated (s : Series) : list bool := duplicated_from [] (cells s).

(** [s.unique()]: first occurrences, in order. *)
Definition unique (l : list cell) : list cell :=
  select (invert (duplicated_from [] l)) l.

(** [s.astype(str)] on one cell of a column of the given dtype.  The null of
    an object column is [None], that of a numeric column is [NaN]. *)
Definition str_of_cell (dtype : string) (c : cell) : string :=
  match c with
  | None => if String.eqb dtype "object" then "None" else "nan"
  | Some (VInt z) => str_of_int z
  | Some (VStr s) => s
  | Some (VBool true) => "True"
  | Some (VBool false) => "False"
  end.

(** A cell as a number: a boolean counts as 0 or 1. *)
Definition num_of_cell (c : cell) : option Z :=
  match c with
  | Some (VInt z) => Some z
  | Some (VBool b) => Some (if b then 1 else 0)
  | _ => None
  end.

(** The comparison of one cell with a number: a null compares false on both
    sides; text has no order with a number and the comparison raises. *)
Definition cell_lt (c : cell) (n : Z) : outcome bool :=
  match c with
  | None => Returned false
  | Some (VStr _) =>
    Raised (TypeError "'<' not supported between instances of 'str' and 'int'")
  | Some _ =>
    Returned match num_of_cell c with Some z => Z.ltb z n | None => false end
  end.
Definition cell_gt (c : cell) (n : Z) : outcome bool :=
  match c with
  | None => Returned false
  | Some (VStr _) =>
    Raised (TypeError "'>' not supported between instances of 'str' and 'int'")
  | Some _ =>
    Returned match num_of_cell c with Some z => Z.ltb n z | None => false end
  end.

(** A comparison applied to the cells in order; the first one that raises
    ends it. *)
Fixpoint elementwise (f : cell -> outcome bool) (l : list cell)
  : outcome (list bool) :=
  match l with
  | [] => Returned []
  | c :: r =>
    match f c with
    | Raised e => Raised e
    | Returned b =>
      match elementwise f r with
      | Raised e => Raised e
      | Returned m => Returned (b :: m)
      end
    end
  end.

(** [s < n] and [s > n]. *)
Definition series_lt (s : Series) (n : Z) : outcome (list bool) :=
  elementwise (fun c => cell_lt c n) (cells s).
Definition series_gt (s : Series) (n : Z) : outcome (list bool) :=
  elementwise (fun c => cell_gt c n) (cells s).

(** [m1 | m2] on two masks over the same index. *)
Fixpoint mask_or (m1 m2 : list bool) : list bool :=
  match m1, m2 with
  | b1 :: r1, b2 :: r2 => (b1 || b2) :: mask_or r1 r2
  | _, _ => []
  end.

(** [s.isin(values)]. *)
Definition isin (s : Series) (vs : list cell) : list bool :=
  map (fun c => bool_decide (py_key c ∈ map py_key vs)) (cells s).

End Pandas.
Export Pandas.

(** ** etl/validators/base.py *)

Module Validators.

Inductive meta :=
| MInt (z : Z)
| MBool (b : bool)
| MFloat (x : float).

Record null_violation :=
  { nv_null_count : Z; nv_null_percentage : float; nv_threshold : float }.

(** The entries of [error_details], one constructor per ['check'] value of a
    validator.  The ['message'] entry of the Python dict is a rendering of the
    other entries and is not kept. *)
Inductive detail :=
| min_row_count_check (expected actual : Z)
| required_columns_check (missing_columns : list string)
| null_threshold_check (violations : list (string * null_violation))
| expected_record_count_check (expected actual : Z) (tolerance : float)
    (lo hi : Z)
| value_range_check (column : string) (lo hi : Z) (violations : Z)
    (sample_values : list cell)
| categorical_values_check (column : string) (valid_values : list cell)
    (violations : Z) (invalid_values : list cell)
| regex_pattern_check (column pattern : string) (violations : Z)
    (sample_values : list cell)
| custom_rule_check (column rule : string) (violations : Z)
| consistency_data_type_check (column expected actual : string)
| uniqueness_check (column : string) (duplicates : Z)
| date_format_check (column expected_format : string) (invalid_count : Z)
| cross_field_check (col1 col2 : string) (violations : Z)
| missing_columns_check (cols : list string)
| extra_columns_check (cols : list string)
| nullability_check (column : string) (null_count : Z)
| schema_data_type_check (column expected actual : string).

Record ValidationResult := {
  validator_name : string;
  validation_type : string;
  passed : bool;
  passed_records : Z;
  failed_records : Z;
  total_records : Z;
  error_details : list detail;
  metadata : list (string * meta)
}.

Definition success_rate (r : ValidationResult) : float :=
  if Z.eqb (total_records r) 0 then 0%float
  else percent (passed_records r) (total_records r).

(** Records written through the module loggers. *)
Inductive log_record :=
| validation_passed (validator type : string) (rate : float) (passed failed : Z)
| validation_failed (validator type : string) (rate : float)
    (passed failed errors : Z)
| custom_rule_error (column error : string)
| cross_field_validation_error (col1 col2 error : string).

Record BaseValidator := { name : string; strict_mode : bool }.

Definition log_result (result : ValidationResult) : list log_record :=
  if passed result then
    [validation_passed (validator_name result) (validation_type result)
       (success_rate result) (passed_records result) (failed_records result)]
  else
    [validation_failed (validator_name result) (validation_type result)
       (success_rate result) (passed_records result) (failed_records result)
       (Z.of_nat (length (error_details result)))].

Definition failure_message (result : ValidationResult) : string :=
  "Validation failed: " +:+ validator_name result +:+ " - "
  +:+ validation_type result +:+ ". " +:+ "Failed records: "
  +:+ str_of_int (failed_records result) +:+ "/"
  +:+ str_of_int (total_records result).

Definition raise_if_failed (self : BaseValidator) (result : ValidationResult)
  : outcome unit :=
  if strict_mode self && negb (passed result)
  then Raised (ValueError (failure_message result))
  else Returned tt.

(** The tail shared by every [validate]:
    [self.log_result(result); self.raise_if_failed(result); return result],
    after the records [logs] written while the checks ran. *)
Definition report (self : BaseValidator) (logs : list log_record)
    (result : ValidationResult) : list log_record * outcome ValidationResult :=
  let logs := logs ++ log_result result in
  match raise_if_failed self result with
  | Raised e => (logs, Raised e)
  | Returned _ => (logs, Returned result)
  end.

(** ** etl/validators/completeness.py *)

Record completeness_kwargs := {
  required_columns : list string;
  null_threshold : option float;
  min_row_count : option Z
}.

(** [(null_count / len(df)) * 100 if len(df) > 0 else 0]. *)
Definition null_percentage (df : DataFrame) (s : Series) : float :=
  if Z.ltb 0 (len df) then percent (null_count s) (len df)
  else 0%float.

(** The loop over [df.columns] that fills [null_violations]. *)
Definition null_violations (df : DataFrame) (threshold : float)
  : list (string * null_violation) :=
  flat_map
    (fun c : string * Series =>
       let pct := null_percentage df (snd c) in
       if float_gt pct threshold
       then [(fst c, {| nv_null_count := null_count (snd c);
                        nv_null_percentage := pct;
                        nv_threshold := threshold |})]
       else [])
    (data df).

Definition sum_Z (l : list Z) : Z := fold_right Z.add 0 l.

(** [df.isnull().sum().sum()]. *)
Definition null_cells (df : DataFrame) : Z :=
  sum_Z (map (fun c : string * Series => null_count (snd c)) (data df)).

Definition completeness_result (self : BaseValidator) (df : DataFrame)
    (kwargs : completeness_kwargs) : ValidationResult :=
  let null_threshold := default 0%float (null_threshold kwargs) in
  let min_row_count := default 1 (min_row_count kwargs) in
  let error_details := [] in
  let passed := true in
  (* Check minimum row count *)
  let '(error_details, passed) :=
    if Z.ltb (len df) min_row_count
    then (error_details ++ [min_row_count_check min_row_count (len df)], false)
    else (error_details, passed) in
  (* Check required columns exist *)
  let missing_columns : gset string :=
    list_to_set (required_columns kwargs) ∖ list_to_set (columns df) in
  let '(error_details, passed) :=
    if bool_decide (missing_columns ≠ ∅)
    then (error_details ++ [required_columns_check (elements missing_columns)],
          false)
    else (error_details, passed) in
  (* Check null values in each column *)
  let null_violations := null_violations df null_threshold in
  let '(error_details, passed) :=
    match null_violations with
    | [] => (error_details, passed)
    | _ => (error_details ++ [null_threshold_check null_violations], false)
    end in
  (* Calculate statistics *)
  let ncols := Z.of_nat (length (columns df)) in
  let total_cells := if Z.ltb 0 ncols then len df * ncols else 0 in
  let null_cells := null_cells df in
  let complete_cells := total_cells - null_cells in
  {| validator_name := name self;
     validation_type := "completeness";
     passed := passed;
     passed_records := complete_cells;
     failed_records := null_cells;
     total_records := total_cells;
     error_details := error_details;
     metadata :=
       [("row_count", MInt (len df));
        ("column_count", MInt ncols);
        ("completeness_rate",
         MFloat (if Z.ltb 0 total_cells
                 then percent complete_cells total_cells
                 else 0%float))] |}.

Definition CompletenessValidator (strict_mode : bool) : BaseValidator :=
  {| name := "completeness_validator"; strict_mode := strict_mode |}.

Definition completeness_validate (self : BaseValidator) (df : DataFrame)
    (kwargs : completeness_kwargs) : list log_record * outcome ValidationResult :=
  report self [] (completeness_result self df kwargs).

(** The two ends of the band of [validate_expected_records],
    [expected_count * (1 - tolerance)] and [expected_count * (1 + tolerance)]. *)
Definition min_expected (expected_count : Z) (tolerance : float) : float :=
  PrimFloat.mul (float_of_int expected_count)
    (PrimFloat.sub 1%float tolerance).
Definition max_expected (expected_count : Z) (tolerance : float) : float :=
  PrimFloat.mul (float_of_int expected_count)
    (PrimFloat.add 1%float tolerance).

(** [min_expected <= actual_count <= max_expected]. *)
Definition within_band (expected_count : Z) (tolerance : float)
    (actual_count : Z) : bool :=
  float_le (min_expected expected_count tolerance) (float_of_int actual_count)
  && float_le (float_of_int actual_count) (max_expected expected_count tolerance).

(** The entry appended under [if not passed]; the two [int(...)] of its
    ['range'] raise when an end of the band is not a finite number. *)
Definition expected_record_count_detail (expected_count actual_count : Z)
    (tolerance : float) : outcome detail :=
  match int_of_float (min_expected expected_count tolerance) with
  | Raised e => Raised e
  | Returned lo =>
    match int_of_float (max_expected expected_count tolerance) with
    | Raised e => Raised e
    | Returned hi =>
      Returned
        (expected_record_count_check expected_count actual_count tolerance
           lo hi)
    end
  end.

(** The result [validate_expected_records] builds before it reports it. *)
Definition expected_records_result (self : BaseValidator) (df : DataFrame)
    (expected_count : Z) (tolerance : float) : outcome ValidationResult :=
  let actual_count := len df in
  let passed := within_band expected_count tolerance actual_count in
  let error_details :=
    if negb passed
    then outcome_map (fun d => [d])
           (expected_record_count_detail expected_count actual_count tolerance)
    else Returned [] in
  match error_details with
  | Raised e => Raised e
  | Returned error_details =>
    Returned
      {| validator_name := name self;
         validation_type := "expected_record_count";
         passed := passed;
         passed_records := if passed then actual_count else 0;
         failed_records := if passed then 0 else actual_count;
         total_records := actual_count;
         error_details := error_details;
         metadata :=
           [("expected_count", MInt expected_count);
            ("actual_count", MInt actual_count);
            ("tolerance", MFloat tolerance);
            ("deviation",
             MFloat (if Z.ltb 0 expected_count
                     then percent (actual_count - expected_count)
                            expected_count
                     else 0%float))] |}
  end.

(** [validate_expected_records]: the record count within a tolerance band. *)
Definition validate_expected_records (self : BaseValidator) (df : DataFrame)
    (expected_count : Z) (tolerance : float)
  : list log_record * outcome ValidationResult :=
  match expected_records_result self df expected_count tolerance with
  | Raised e => ([], Raised e)
  | Returned result => report self [] result
  end.

(** The running state of the accuracy and consistency validators: the three
    local variables [error_details], [passed_count], [failed_count], and the
    records logged so far. *)
Record tally := {
  t_error_details : list detail;
  t_passed_count : Z;
  t_failed_count : Z;
  t_log : list log_record
}.

Definition tally0 : tally :=
  {| t_error_details := []; t_passed_count := 0; t_failed_count := 0;
     t_log := [] |}.

Definition add_failed (n : Z) (t : tally) : tally :=
  {| t_error_details := t_error_details t;
     t_passed_count := t_passed_count t;
     t_failed_count := t_failed_count t + n;
     t_log := t_log t |}.

Definition add_passed (n : Z) (t : tally) : tally :=
  {| t_error_details := t_error_details t;
     t_passed_count := t_passed_count t + n;
     t_failed_count := t_failed_count t;
     t_log := t_log t |}.

Definition append_detail (d : detail) (t : tally) : tally :=
  {| t_error_details := t_error_details t ++ [d];
     t_passed_count := t_passed_count t;
     t_failed_count := t_failed_count t;
     t_log := t_log t |}.

Definition log_error (r : log_record) (t : tally) : tally :=
  {| t_error_details := t_error_details t;
     t_passed_count := t_passed_count t;
     t_failed_count := t_failed_count t;
     t_log := t_log t ++ [r] |}.

(** What one check, or the checks run so far, leave: the tally, and the
    exception of a check that raised one the validator does not catch.  The
    validator stops at such a check: the exception leaves [validate]. *)
Definition checked := (tally * option exn)%type.

(** A [for] loop over the items of a ruleset; it ends at the first item whose
    check raises. *)
Fixpoint for_each {X} (step : tally -> X -> checked) (l : list X) (t : tally)
  : checked :=
  match l with
  | [] => (t, None)
  | x :: rest =>
    match step t x with
    | (t, None) => for_each step rest t
    | (t, Some e) => (t, Some e)
    end
  end.

(** The next loop, which runs unless an earlier one raised. *)
Definition and_then {X} (c : checked) (step : tally -> X -> checked)
    (l : list X) : checked :=
  match c with
  | (t, None) => for_each step l t
  | (t, Some e) => (t, Some e)
  end.

(** A caller-supplied predicate over a column: calling it returns a boolean
    mask or raises; [rule_name] is its [__name__] attribute, which callables
    other than functions need not have. *)
Record rule := {
  rule_func : Series -> outcome (list bool);
  rule_name : option string
}.

(** A cross-field comparison over two columns. *)
Definition comparison := Series -> Series -> outcome (list bool).

Record accuracy_kwargs := {
  value_ranges : list (string * (Z * Z));
  categorical_values : list (string * list cell);
  regex_patterns : list (string * string);
  custom_rules : list (string * rule)
}.

Record consistency_kwargs := {
  data_types : list (string * string);
  unique_columns : list string;
  date_formats : list (string * string);
  cross_field_rules : list (string * string * comparison)
}.

Record schema_def := { sd_type : option string; sd_nullable : option bool }.

Record schema_kwargs := {
  expected_schema : list (string * schema_def);
  allow_extra_columns : option bool
}.

Section Checks.

(** Library functions the checks call, taken as given:
    [re_compile pattern] is [re.compile(pattern)]: it raises ([re.error])
    where the pattern is not a regular expression, and otherwise returns the
    test whether [re.match(pattern, s)] succeeds;
    [to_datetime_column fmt cells] is [pd.to_datetime(column, format=fmt,
    errors='raise')] not raising; [to_datetime_value fmt c] is
    [pd.to_datetime(value, format=fmt)] not raising;
    [lower s] is [s.lower()]. *)
Variable re_compile : string -> outcome (string -> bool).
Variable to_datetime_column : string -> list cell -> bool.
Variable to_datetime_value : string -> cell -> bool.
Variable lower : string -> string.

(** ** etl/validators/accuracy.py *)

(** [(df[column] < min_val) | (df[column] > max_val)]. *)
Definition out_of_range (s : Series) (min_val max_val : Z)
  : outcome (list bool) :=
  match series_lt s min_val with
  | Raised e => Raised e
  | Returned below =>
    match series_gt s max_val with
    | Raised e => Raised e
    | Returned above => Returned (mask_or below above)
    end
  end.

Definition value_range_step (df : DataFrame) (t : tally)
    (item : string * (Z * Z)) : checked :=
  let '(column, (min_val, max_val)) := item in
  match col df column with
  | None => (t, None)
  | Some s =>
    match out_of_range s min_val max_val with
    | Raised e => (t, Some e)
    | Returned mask =>
      let violations := count_true mask in
      let t :=
        if Z.ltb 0 violations
        then append_detail
               (value_range_check column min_val max_val violations
                  (take 5 (select mask (cells s))))
               (add_failed violations t)
        else t in
      (add_passed (len df - violations) t, None)
    end
  end.

Definition categorical_step (df : DataFrame) (t : tally)
    (item : string * list cell) : checked :=
  let '(column, valid_values) := item in
  match col df column with
  | None => (t, None)
  | Some s =>
    let mask := invert (isin s valid_values) in
    let violations := count_true mask in
    let t :=
      if Z.ltb 0 violations
      then append_detail
             (categorical_values_check column (take 10 valid_values) violations
                (take 10 (unique (select mask (cells s)))))
             (add_failed violations t)
      else t in
    (add_passed (len df - violations) t, None)
  end.

Definition regex_step (df : DataFrame) (t : tally)
    (item : string * string) : checked :=
  let '(column, pattern) := item in
  match col df column with
  | None => (t, None)
  | Some s =>
    match re_compile pattern with
    | Raised e => (t, Some e)
    | Returned re_match =>
      let mask :=
        invert (map (fun c => re_match (str_of_cell (dtype s) c)) (cells s)) in
      let violations := count_true mask in
      let t :=
        if Z.ltb 0 violations
        then append_detail
               (regex_pattern_check column pattern violations
                  (take 5 (select mask (cells s))))
               (add_failed violations t)
        else t in
      (add_passed (len df - violations) t, None)
    end
  end.

(** The body of the [try] of the custom-rule loop.  It raises where the rule
    raises, where the mask does not have one entry per row ([df[~mask]]), and
    where the rule has no [__name__]; in the last case [failed_count] has
    already been increased. *)
Definition custom_rule_try (df : DataFrame) (t : tally) (column : string)
    (r : rule) (s : Series) : tally * option exn :=
  match rule_func r s with
  | Raised e => (t, Some e)
  | Returned mask =>
    if negb (Nat.eqb (length mask) (index_len df))
    then (t, Some (ValueError "Item wrong length"))
    else
      let violations := count_true (invert mask) in
      if Z.ltb 0 violations then
        let t := add_failed violations t in
        match rule_name r with
        | None => (t, Some (AttributeError "object has no attribute '__name__'"))
        | Some n =>
          (add_passed (len df - violations)
             (append_detail (custom_rule_check column n violations) t), None)
        end
      else (add_passed (len df - violations) t, None)
  end.

(** [try: ... except Exception as e: logger.error(...)]: an exception that is
    not an instance of [Exception] passes through. *)
Definition custom_rule_step (df : DataFrame) (t : tally)
    (item : string * rule) : checked :=
  let '(column, r) := item in
  match col df column with
  | None => (t, None)
  | Some s =>
    match custom_rule_try df t column r s with
    | (t, None) => (t, None)
    | (t, Some e) =>
      if is_exception e
      then (log_error (custom_rule_error column (str_of_exn e)) t, None)
      else (t, Some e)
    end
  end.

(** The four loops of [validate]. *)
Definition accuracy_run (df : DataFrame) (kwargs : accuracy_kwargs) : checked :=
  let c := for_each (value_range_step df) (value_ranges kwargs) tally0 in
  let c := and_then c (categorical_step df) (categorical_values kwargs) in
  let c := and_then c (regex_step df) (regex_patterns kwargs) in
  and_then c (custom_rule_step df) (custom_rules kwargs).

(** The tally the checks leave, and the exception that ended them, if any. *)
Definition accuracy_checks (df : DataFrame) (kwargs : accuracy_kwargs) : tally :=
  fst (accuracy_run df kwargs).
Definition accuracy_error (df : DataFrame) (kwargs : accuracy_kwargs)
  : option exn :=
  snd (accuracy_run df kwargs).

(** The result [validate] builds, once its checks have run to their end,
    from the tally they leave. *)
Definition accuracy_result (self : BaseValidator) (df : DataFrame)
    (kwargs : accuracy_kwargs) : ValidationResult :=
  let t := accuracy_checks df kwargs in
  let total_records := t_passed_count t + t_failed_count t in
  let passed := Nat.eqb (length (t_error_details t)) 0 in
  {| validator_name := name self;
     validation_type := "accuracy";
     passed := passed;
     passed_records := t_passed_count t;
     failed_records := t_failed_count t;
     total_records := total_records;
     error_details := t_error_details t;
     metadata :=
       [("checks_performed",
         MInt (Z.of_nat (length (value_ranges kwargs))
               + Z.of_nat (length (categorical_values kwargs))
               + Z.of_nat (length (regex_patterns kwargs))
               + Z.of_nat (length (custom_rules kwargs))))] |}.

Definition AccuracyValidator (strict_mode : bool) : BaseValidator :=
  {| name := "accuracy_validator"; strict_mode := strict_mode |}.

(** [validate]: an exception of a check leaves it as it is, before any result
    is built; otherwise the result is built, logged and reported. *)
Definition accuracy_validate (self : BaseValidator) (df : DataFrame)
    (kwargs : accuracy_kwargs) : list log_record * outcome ValidationResult :=
  match accuracy_error df kwargs with
  | Some e => (t_log (accuracy_checks df kwargs), Raised e)
  | None =>
    report self (t_log (accuracy_checks df kwargs))
      (accuracy_result self df kwargs)
  end.

(** ** etl/validators/consistency.py *)

Definition data_type_step (df : DataFrame) (t : tally)
    (item : string * string) : checked :=
  let '(column, expected_dtype) := item in
  match col df column with
  | None => (t, None)
  | Some s =>
    let actual_dtype := dtype s in
    if negb (String.eqb actual_dtype expected_dtype)
    then (add_failed (len df)
            (append_detail
               (consistency_data_type_check column expected_dtype actual_dtype)
               t), None)
    else (add_passed (len df) t, None)
  end.

Definition uniqueness_step (df : DataFrame) (t : tally) (column : string)
  : checked :=
  match col df column with
  | None => (t, None)
  | Some s =>
    let duplicates := count_true (duplicated s) in
    if Z.ltb 0 duplicates
    then (add_passed (len df - duplicates)
            (add_failed duplicates
               (append_detail (uniqueness_check column duplicates) t)), None)
    else (add_passed (len df) t, None)
  end.

(** The inner loop [for val in df[column]] counting the values that do not
    parse. *)
Definition invalid_dates (date_format : string) (s : Series) : Z :=
  count_true (map (fun c => negb (to_datetime_value date_format c)) (cells s)).

(** Both [except:] clauses of this check are bare: they handle whatever is
    raised. *)
Definition date_format_step (df : DataFrame) (t : tally)
    (item : string * string) : checked :=
  let '(column, date_format) := item in
  match col df column with
  | None => (t, None)
  | Some s =>
    if to_datetime_column date_format (cells s)
    then (add_passed (len df) t, None)
    else
      let invalid_dates := invalid_dates date_format s in
      if Z.ltb 0 invalid_dates
      then (add_passed (len df - invalid_dates)
              (add_failed invalid_dates
                 (append_detail
                    (date_format_check column date_format invalid_dates) t)),
            None)
      else (t, None)
  end.

Definition cross_field_step (df : DataFrame) (t : tally)
    (item : string * string * comparison) : checked :=
  let '(col1, col2, comparison_func) := item in
  match col df col1, col df col2 with
  | Some s1, Some s2 =>
    match comparison_func s1 s2 with
    | Returned mask =>
      let violations := count_true (invert mask) in
      if Z.ltb 0 violations
      then (add_passed (len df - violations)
              (add_failed violations
                 (append_detail (cross_field_check col1 col2 violations) t)),
            None)
      else (add_passed (len df) t, None)
    | Raised e =>
      if is_exception e
      then (log_error (cross_field_validation_error col1 col2 (str_of_exn e))
              t, None)
      else (t, Some e)
    end
  | _, _ => (t, None)
  end.

Definition consistency_run (df : DataFrame) (kwargs : consistency_kwargs)
  : checked :=
  let c := for_each (data_type_step df) (data_types kwargs) tally0 in
  let c := and_then c (uniqueness_step df) (unique_columns kwargs) in
  let c := and_then c (date_format_step df) (date_formats kwargs) in
  and_then c (cross_field_step df) (cross_field_rules kwargs).

Definition consistency_checks (df : DataFrame) (kwargs : consistency_kwargs)
  : tally :=
  fst (consistency_run df kwargs).
Definition consistency_error (df : DataFrame) (kwargs : consistency_kwargs)
  : option exn :=
  snd (consistency_run df kwargs).

Definition consistency_result (self : BaseValidator) (df : DataFrame)
    (kwargs : consistency_kwargs) : ValidationResult :=
  let t := consistency_checks df kwargs in
  let total_records := t_passed_count t + t_failed_count t in
  let passed := Nat.eqb (length (t_error_details t)) 0 in
  {| validator_name := name self;
     validation_type := "consistency";
     passed := passed;
     passed_records := t_passed_count t;
     failed_records := t_failed_count t;
     total_records := total_records;
     error_details := t_error_details t;
     metadata :=
       [("data_type_checks", MInt (Z.of_nat (length (data_types kwargs))));
        ("uniqueness_checks", MInt (Z.of_nat (length (unique_columns kwargs))));
        ("date_format_checks", MInt (Z.of_nat (length (date_formats kwargs))));
        ("cross_field_checks",
         MInt (Z.of_nat (length (cross_field_rules kwargs))))] |}.

Definition ConsistencyValidator (strict_mode : bool) : BaseValidator :=
  {| name := "consistency_validator"; strict_mode := strict_mode |}.

Definition consistency_validate (self : BaseValidator) (df : DataFrame)
    (kwargs : consistency_kwargs) : list log_record * outcome ValidationResult :=
  match consistency_error df kwargs with
  | Some e => (t_log (consistency_checks df kwargs), Raised e)
  | None =>
    report self (t_log (consistency_checks df kwargs))
      (consistency_result self df kwargs)
  end.

(** ** etl/validators/schema.py *)

Definition type_mappings : list (string * list string) :=
  [("int", ["int64"; "int32"; "int16"; "int8"]);
   ("float", ["float64"; "float32"; "float16"]);
   ("string", ["object"; "string"]);
   ("bool", ["bool"]);
   ("datetime", ["datetime64"; "datetime64[ns]"])].

Definition _is_type_compatible (actual_type expected_type : string) : bool :=
  match
    find (fun m : string * list string =>
            String.eqb (lower expected_type) (fst m)) type_mappings
  with
  | Some (_, actuals) => existsb (fun actual => contains actual_type actual) actuals
  | None => String.eqb (lower actual_type) (lower expected_type)
  end.

(** The state of the schema validator: [error_details] and [passed]. *)
Definition schema_state := (list detail * bool)%type.

Definition column_property_step (df : DataFrame) (st : schema_state)
    (item : string * schema_def) : schema_state :=
  let '(column, schema_def) := item in
  match col df column with
  | None => st
  | Some s =>
    let expected_type := sd_type schema_def in
    let nullable := default true (sd_nullable schema_def) in
    (* Check nullability *)
    let st :=
      if negb nullable && existsb id (isnull s)
      then (fst st ++ [nullability_check column (null_count s)], false)
      else st in
    (* Check data type compatibility *)
    match expected_type with
    | Some expected_type =>
      if negb (String.eqb expected_type "")
         && negb (_is_type_compatible (dtype s) expected_type)
      then (fst st ++ [schema_data_type_check column expected_type (dtype s)],
            false)
      else st
    | None => st
    end
  end.

Definition schema_checks (df : DataFrame) (kwargs : schema_kwargs)
  : schema_state :=
  let allow_extra_columns := default true (allow_extra_columns kwargs) in
  let st : schema_state := ([], true) in
  let expected_columns : gset string :=
    list_to_set (map fst (expected_schema kwargs)) in
  let actual_columns : gset string := list_to_set (columns df) in
  (* Check for missing columns *)
  let missing_columns := expected_columns ∖ actual_columns in
  let st :=
    if bool_decide (missing_columns ≠ ∅)
    then (fst st ++ [missing_columns_check (elements missing_columns)], false)
    else st in
  (* Check for extra columns *)
  let st :=
    if negb allow_extra_columns then
      let extra_columns := actual_columns ∖ expected_columns in
      if bool_decide (extra_columns ≠ ∅)
      then (fst st ++ [extra_columns_check (elements extra_columns)], false)
      else st
    else st in
  (* Validate column properties *)
  fold_left (column_property_step df) (expected_schema kwargs) st.

Definition schema_result (self : BaseValidator) (df : DataFrame)
    (kwargs : schema_kwargs) : ValidationResult :=
  let '(error_details, passed) := schema_checks df kwargs in
  {| validator_name := name self;
     validation_type := "schema";
     passed := passed;
     passed_records := if passed then len df else 0;
     failed_records := if passed then 0 else len df;
     total_records := len df;
     error_details := error_details;
     metadata :=
       [("expected_columns", MInt (Z.of_nat (length (expected_schema kwargs))));
        ("actual_columns", MInt (Z.of_nat (length (columns df))));
        ("allow_extra_columns",
         MBool (default true (allow_extra_columns kwargs)))] |}.

Definition SchemaValidator (strict_mode : bool) : BaseValidator :=
  {| name := "schema_validator"; strict_mode := strict_mode |}.

Definition schema_validate (self : BaseValidator) (df : DataFrame)
    (kwargs : schema_kwargs) : list log_record * outcome ValidationResult :=
  report self [] (schema_result self df kwargs).

(** ** The four validator kinds behind one [validate] *)

Inductive kind := Completeness | Accuracy | Consistency | Schema.

Definition kwargs_of (k : kind) : Type :=
  match k with
  | Completeness => completeness_kwargs
  | Accuracy => accuracy_kwargs
  | Consistency => consistency_kwargs
  | Schema => schema_kwargs
  end.

(** The constructor of each class: it fixes the name and takes [strict_mode]. *)
Definition make (k : kind) (strict_mode : bool) : BaseValidator :=
  match k with
  | Completeness => CompletenessValidator strict_mode
  | Accuracy => AccuracyValidator strict_mode
  | Consistency => ConsistencyValidator strict_mode
  | Schema => SchemaValidator strict_mode
  end.

(** The result built by [validate] once its checks have run to their end,
    before it is logged and possibly turned into an error. *)
Definition result_of (k : kind) (self : BaseValidator) (df : DataFrame)
  : kwargs_of k -> ValidationResult :=
  match k with
  | Completeness => completeness_result self df
  | Accuracy => accuracy_result self df
  | Consistency => consistency_result self df
  | Schema => schema_result self df
  end.

Definition validate (k : kind) (self : BaseValidator) (df : DataFrame)
  : kwargs_of k -> list log_record * outcome ValidationResult :=
  match k with
  | Completeness => completeness_validate self df
  | Accuracy => accuracy_validate self df
  | Consistency => consistency_validate self df
  | Schema => schema_validate self df
  end.


(** The records written while the checks of a validator run. *)
Definition checks_log (k : kind) (df : DataFrame) : kwargs_of k -> list log_record :=
  match k with
  | Completeness => fun _ => []
  | Accuracy => fun kw => t_log (accuracy_checks df kw)
  | Consistency =>
    fun kw => t_log (consistency_checks df kw)
  | Schema => fun _ => []
  end.

(** The exception with which a check of the validator ended the checks; the
    completeness and the schema validator have no check that raises. *)
Definition checks_error (k : kind) (df : DataFrame) : kwargs_of k -> option exn :=
  match k with
  | Completeness => fun _ => None
  | Accuracy => fun kw => accuracy_error df kw
  | Consistency => fun kw => consistency_error df kw
  | Schema => fun _ => None
  end.

End Checks.

(** *** Notions used to state the properties *)

(** The flag and the list of the schema validator move together. *)
Definition flag_tracks_errors (st : schema_state) : Prop :=
  snd st = bool_decide (fst st = []).


(** The part of a result the checks contribute to. *)
Definition counts_and_details (r : ValidationResult)
  : bool * Z * Z * Z * list detail :=
  (passed r, passed_records r, failed_records r, total_records r,
   error_details r).



End Validators.

(** ** etl/utils/distributed_lock.py *)

Module Lock.

(** The Redis keyspace: a key holds a value until its expiry time. *)
Record entry := { e_value : string; e_expires : Z }.

#[export] Instance entry_eq_dec : EqDecision entry.
Proof. solve_decision. Defined.

(** What a run of client code can observe and leaves behind. *)
Inductive event :=
| ev_set_nx (key value : string) (ex : Z) (ok : bool)
| ev_eval (key value : string) (deleted : bool)
| ev_sleep (seconds : Z)
| ev_log (record : string) (lock_name : string).

(** The shared store, the clock ([time.time()], in seconds) and the calls made
    so far. *)
Record World := {
  redis : gmap string entry;
  clock : Z;
  trace : list event
}.

Definition record (e : event) (w : World) : World :=
  {| redis := redis w; clock := clock w; trace := trace w ++ [e] |}.

(** [GET key]: an expired key is absent. *)
Definition get (w : World) (key : string) : option string :=
  match redis w !! key with
  | Some e => if Z.ltb (clock w) (e_expires e) then Some (e_value e) else None
  | None => None
  end.

(** The answer of Redis to [SET key value EX ex NX] with [ex] not positive. *)
Definition invalid_expire_time : exn :=
  ResponseError "invalid expire time in 'set' command".

(** [redis_client.set(key, value, nx=True, ex=ex)]: set if absent, with
    expiry.  Redis refuses an expiry that is not positive before it looks at
    the key, and the client raises. *)
Definition set_nx (key value : string) (ex : Z) (w : World)
  : World * outcome bool :=
  if Z.leb ex 0
  then (record (ev_set_nx key value ex false) w, Raised invalid_expire_time)
  else
    match get w key with
    | Some _ => (record (ev_set_nx key value ex false) w, Returned false)
    | None =>
      (record (ev_set_nx key value ex true)
         {| redis := <[key := {| e_value := value; e_expires := clock w + ex |}]>
                       (redis w);
            clock := clock w; trace := trace w |},
       Returned true)
    end.

(** [redis_client.eval(lua_script, 1, key, value)] for the script of
    [release]: delete the key if it holds [value], atomically. *)
Definition eval_lua_script (key value : string) (w : World) : World * bool :=
  if bool_decide (get w key = Some value)
  then (record (ev_eval key value true)
          {| redis := delete key (redis w); clock := clock w;
             trace := trace w |},
        true)
  else (record (ev_eval key value false) w, false).

Record DistributedLock := {
  lock_name : string;
  timeout : Z;
  retry_interval : Z;
  lock_id : string
}.

(** [DistributedLock(lock_name, timeout, retry_interval)]; [uuid] is the value
    [uuid.uuid4()] returns. *)
Definition new (name : string) (timeout retry_interval : Z) (uuid : string)
  : DistributedLock :=
  {| lock_name := "etl:lock:" +:+ name; timeout := timeout;
     retry_interval := retry_interval; lock_id := uuid |}.

(** [timeout or self.timeout]. *)
Definition max_wait (self : DistributedLock) (timeout_arg : option Z) : Z :=
  match timeout_arg with
  | Some t => if Z.eqb t 0 then timeout self else t
  | None => timeout self
  end.

Section Environment.

(** The other clients of the store and the passing of time, as the handle sees
    them, between one reading of the clock in the loop of [acquire] and the
    next: [others t m] is the keyspace after what other clients did to [m]
    during the turn whose reading was [t]; [lag t] is the time that turn took
    beyond the length of its sleep (the calls to the store, and the overrun
    of the sleep). *)
Variable others : Z -> gmap string entry -> gmap string entry.
Variable lag : Z -> Z.

(** [time.sleep(seconds)]; it raises on a negative length. *)
Definition sleep (seconds : Z) (w : World) : World * outcome unit :=
  if Z.ltb seconds 0
  then (w, Raised (ValueError "sleep length must be non-negative"))
  else
    ({| redis := others (clock w) (redis w);
        clock := clock w + seconds + lag (clock w);
        trace := trace w ++ [ev_sleep seconds] |}, Returned tt).

(** The [while True] loop of [acquire]; [fuel] bounds the number of
    iterations, and [None] means the loop is still running after that many. *)
Fixpoint acquire_loop (fuel : nat) (self : DistributedLock) (blocking : bool)
    (start_time max_wait : Z) (w : World) : option (World * outcome bool) :=
  match fuel with
  | O => None
  | S fuel =>
    match set_nx (lock_name self) (lock_id self) (timeout self) w with
    | (w, Raised e) => Some (w, Raised e)
    | (w, Returned acquired) =>
      if acquired
      then Some (record (ev_log "lock_acquired" (lock_name self)) w,
                 Returned true)
      else if negb blocking then Some (w, Returned false)
      else if Z.leb max_wait (clock w - start_time)
      then Some (record (ev_log "lock_acquisition_timeout" (lock_name self)) w,
                 Returned false)
      else
        match sleep (retry_interval self) w with
        | (w, Raised e) => Some (w, Raised e)
        | (w, Returned _) =>
          acquire_loop fuel self blocking start_time max_wait w
        end
    end
  end.

Definition acquire (fuel : nat) (self : DistributedLock) (blocking : bool)
    (timeout_arg : option Z) (w : World) : option (World * outcome bool) :=
  let start_time := clock w in
  let max_wait := max_wait self timeout_arg in
  acquire_loop fuel self blocking start_time max_wait w.

Definition release (self : DistributedLock) (w : World) : World * bool :=
  let '(w, released) := eval_lua_script (lock_name self) (lock_id self) w in
  let w := if released then record (ev_log "lock_released" (lock_name self)) w
           else w in
  (w, released).

(** The code run inside a [with] block: it may use the store, take time, and
    return or raise. *)
Definition block (A : Type) := World -> World * outcome A.

(** [with self.context(blocking, timeout): body]. *)
Definition context {A} (fuel : nat) (self : DistributedLock) (blocking : bool)
    (timeout_arg : option Z) (body : block A) (w : World)
  : option (World * outcome A) :=
  match acquire fuel self blocking timeout_arg w with
  | None => None
  | Some (w, Raised e) => Some (w, Raised e)
  | Some (w, Returned acquired) =>
    if negb acquired
    then Some (w, Raised (RuntimeError
                            ("Failed to acquire lock: " +:+ lock_name self)))
    else
      (* try: yield self; finally: self.release() *)
      let '(w, r) := body w in
      let '(w, _) := release self w in
      Some (w, r)
  end.

(** [with self: body], through [__enter__] and [__exit__]. *)
Definition __enter__ (fuel : nat) (self : DistributedLock) (w : World)
  : option (World * outcome unit) :=
  match acquire fuel self true None w with
  | None => None
  | Some (w, Raised e) => Some (w, Raised e)
  | Some (w, Returned _) => Some (w, Returned tt)
  end.

(** [__exit__] returns [False]: an exception of the body is not suppressed. *)
Definition __exit__ (self : DistributedLock) (w : World) : World * bool :=
  let '(w, _) := release self w in (w, false).

(** When [__enter__] raises, the body is not run and [__exit__] is not
    called. *)
Definition with_self {A} (fuel : nat) (self : DistributedLock) (body : block A)
    (w : World) : option (World * outcome A) :=
  match __enter__ fuel self w with
  | None => None
  | Some (w, Raised e) => Some (w, Raised e)
  | Some (w, Returned _) =>
    let '(w, r) := body w in
    let '(w, _) := __exit__ self w in
    Some (w, r)
  end.

End Environment.

(** The events of one kind in a trace. *)
Definition attempts (evs : list event) : list bool :=
  omap (fun e => match e with ev_set_nx _ _ _ ok => Some ok | _ => None end) evs.
Definition sleeps (evs : list event) : list Z :=
  omap (fun e => match e with ev_sleep d => Some d | _ => None end) evs.
Definition evals (evs : list event) : list (string * string * bool) :=
  omap (fun e => match e with ev_eval k v d => Some (k, v, d) | _ => None end)
    evs.

(** No entry of the keyspace holds the token [tok]. *)
Definition foreign (tok : string) (m : gmap string entry) : Prop :=
  map_Forall (fun _ e => e_value e ≠ tok) m.

(** The other clients never store the token [tok]: it is this handle's own
    [uuid4]. *)
Definition never_store (tok : string)
    (others : Z -> gmap string entry -> gmap string entry) : Prop :=
  forall t m, foreign tok m -> foreign tok (others t m).

End Lock.

(** ** etl/utils/db_connection.py and etl/loaders/warehouse_loader.py *)

Module Warehouse.

(** A row as a dict from column name to value. *)
Definition row := list (string * cell).

(** [row.get(col)]. *)
Definition row_get (r : row) (c : string) : cell := mjoin (assoc c r).

(** The two parameterized statements the loader builds, after the arguments
    of one row are bound. *)
Inductive statement :=
| insert_do_nothing (table : string) (columns : list string) (args : list cell)
| insert_do_update (table : string) (columns conflict_columns update_columns
    : list string) (args : list cell).

(** *** The database as the loader's statements see it *)

(** A table: its unique keys, its rows, and what else its definition demands
    of a row (the names of its columns, their types, [NOT NULL] and [CHECK]
    constraints): [refuses r] is the error with which the server refuses the
    row [r], if it does. *)
Record table := {
  unique_keys : list (list string);
  refuses : row -> option exn;
  rows : list row
}.

Definition agrees (key : list string) (r1 r2 : row) : bool :=
  forallb
    (fun c => match row_get r1 c, row_get r2 c with
              | Some v1, Some v2 => bool_decide (v1 = v2)
              | _, _ => false
              end) key.

Definition conflicts (t : table) (r : row) : bool :=
  existsb (fun key => existsb (agrees key r) (rows t)) (unique_keys t).

Definition add_row (r : row) (t : table) : table :=
  {| unique_keys := unique_keys t; refuses := refuses t;
     rows := rows t ++ [r] |}.

(** [DO UPDATE SET col = EXCLUDED.col] on the first row that agrees with [r]
    on [key]. *)
Definition excluded (update_columns : list string) (r old : row) : row :=
  map (fun kv : string * cell =>
         if bool_decide (fst kv ∈ update_columns)
         then (fst kv, row_get r (fst kv)) else kv) old.

Fixpoint update_first (key update_columns : list string) (r : row)
    (l : list row) : list row :=
  match l with
  | [] => []
  | old :: rest =>
    if agrees key r old then excluded update_columns r old :: rest
    else old :: update_first key update_columns r rest
  end.

(** No two of the rows agree on a unique key. *)
Fixpoint distinct_rows (keys : list (list string)) (l : list row) : bool :=
  match l with
  | [] => true
  | r :: rest =>
    negb (existsb (fun key => existsb (agrees key r) rest) keys)
    && distinct_rows keys rest
  end.

(** The conflict target names the columns of one of the unique keys, in
    any order. *)
Definition is_unique_key (t : table) (conflict_columns : list string) : bool :=
  existsb
    (fun key =>
       bool_decide ((list_to_set key : gset string)
                    = list_to_set conflict_columns))
    (unique_keys t).

(** The classes of error the server answers the loader's statements with. *)
Inductive sqlstate :=
| syntax_error
| undefined_table
| invalid_column_reference
| unique_violation.

(** What psycopg2 raises by itself for an empty statement. *)
Definition empty_query : exn := ProgrammingError "can't execute an empty query".

Section Server.

(** The text of the message the server sends with an error of each class,
    taken as given. *)
Variable server_message : sqlstate -> string.

(** The exception psycopg2 raises for an error of the server. *)
Definition server_error (c : sqlstate) : exn :=
  match c with
  | unique_violation => IntegrityError (server_message c)
  | _ => ProgrammingError (server_message c)
  end.

(** One statement: the new tables and the number of rows it affected.  The
    statement is parsed before the table is looked up: an empty list of
    columns, an empty conflict target [ON CONFLICT ()] and an empty [SET]
    list are syntax errors. *)
Definition run_statement (tables : gmap string table) (st : statement)
  : outcome (gmap string table * Z) :=
  match st with
  | insert_do_nothing tbl columns args =>
    match columns with
    | [] => Raised (server_error syntax_error)
    | _ =>
      match tables !! tbl with
      | None => Raised (server_error undefined_table)
      | Some t =>
        let r := zip columns args in
        match refuses t r with
        | Some e => Raised e
        | None =>
          if conflicts t r then Returned (tables, 0)
          else Returned (<[tbl := add_row r t]> tables, 1)
        end
      end
    end
  | insert_do_update tbl columns conflict_columns update_columns args =>
    match columns, conflict_columns, update_columns with
    | _ :: _, _ :: _, _ :: _ =>
      match tables !! tbl with
      | None => Raised (server_error undefined_table)
      | Some t =>
        let r := zip columns args in
        match refuses t r with
        | Some e => Raised e
        | None =>
          if negb (is_unique_key t conflict_columns)
          then Raised (server_error invalid_column_reference)
          else if existsb (agrees conflict_columns r) (rows t)
          then
            let updated :=
              update_first conflict_columns update_columns r (rows t) in
            if distinct_rows (unique_keys t) updated
            then Returned
                   (<[tbl := {| unique_keys := unique_keys t;
                                refuses := refuses t;
                                rows := updated |}]> tables, 1)
            else Raised (server_error unique_violation)
          else if conflicts t r then Raised (server_error unique_violation)
          else Returned (<[tbl := add_row r t]> tables, 1)
        end
      end
    | _, _, _ => Raised (server_error syntax_error)
    end
  end.

(** A connection checked out of the pool with its cursor: the tables as the
    open transaction sees them, [cursor.rowcount], and the [execute] calls
    the server received, each with the statements it carried. *)
Record Connection := {
  tables : gmap string table;
  rowcount : Z;
  calls : list (list statement)
}.

(** The statements of one [execute] call run in order; [rowcount] is that of
    the last one. *)
Fixpoint run_statements (tables : gmap string table) (rowcount : Z)
    (sts : list statement) : outcome (gmap string table * Z) :=
  match sts with
  | [] => Returned (tables, rowcount)
  | st :: rest =>
    match run_statement tables st with
    | Raised e => Raised e
    | Returned (tables, n) => run_statements tables n rest
    end
  end.

(** [cursor.execute(b";".join(sqls))].  An empty statement is refused by
    psycopg2 and not sent. *)
Definition execute (sts : list statement) (c : Connection)
  : Connection * outcome unit :=
  match sts with
  | [] => (c, Raised empty_query)
  | _ =>
    let received := calls c ++ [sts] in
    match run_statements (tables c) (rowcount c) sts with
    | Raised e =>
      ({| tables := tables c; rowcount := rowcount c; calls := received |},
       Raised e)
    | Returned (tables, n) =>
      ({| tables := tables; rowcount := n; calls := received |}, Returned tt)
    end
  end.

(** psycopg2's [_paginate(seq, page_size)] for a page size of at least one:
    pages of [page_size] items, the last one shorter; [page] is the page being
    filled. *)
Fixpoint _paginate {A} (page_size : nat) (page : list A) (seq : list A)
  : list (list A) :=
  match seq with
  | [] => match page with [] => [] | _ => [page] end
  | x :: rest =>
    let page := page ++ [x] in
    if Nat.eqb (length page) page_size
    then page :: _paginate page_size [] rest
    else _paginate page_size page rest
  end.

Fixpoint execute_pages (pages : list (list statement)) (c : Connection)
  : Connection * outcome unit :=
  match pages with
  | [] => (c, Returned tt)
  | page :: rest =>
    match execute page c with
    | (c, Raised e) => (c, Raised e)
    | (c, Returned _) => execute_pages rest c
    end
  end.

(** psycopg2's [execute_batch(cur, sql, argslist, page_size)].  With a page
    size below one the first page is empty and its [execute] fails. *)
Definition execute_batch (sql : list cell -> statement)
    (argslist : list (list cell)) (page_size : Z) (c : Connection)
  : Connection * outcome unit :=
  if Z.leb page_size 0 then execute [] c
  else execute_pages (_paginate (Z.to_nat page_size) [] (map sql argslist)) c.

(** The server behind the pool: the committed tables, the [execute] calls it
    has received, and the records logged. *)
Record Server := {
  committed : gmap string table;
  received : list (list statement);
  log : list (string * string)
}.

Definition write_log (record subject : string) (s : Server) : Server :=
  {| committed := committed s; received := received s;
     log := log s ++ [(record, subject)] |}.

(** [except Exception as e: logger.error(record, ...); raise]: the record is
    written for an instance of [Exception] only. *)
Definition log_exception (record subject : string) (e : exn) (s : Server)
  : Server :=
  if is_exception e then write_log record subject s else s.

(** [with self.get_connection() as conn: with conn.cursor() as cursor: body]:
    commit when the body returns, roll back and re-raise when it raises; a
    connection closed without a commit leaves nothing behind either. *)
Definition get_connection {A} (body : Connection -> Connection * outcome A)
    (s : Server) : Server * outcome A :=
  let conn := {| tables := committed s; rowcount := -1; calls := [] |} in
  match body conn with
  | (conn, Returned a) =>
    ({| committed := tables conn; received := received s ++ calls conn;
        log := log s |}, Returned a)
  | (conn, Raised e) =>
    (log_exception "database_error" (str_of_exn e) e
       {| committed := committed s; received := received s ++ calls conn;
          log := log s |}, Raised e)
  end.

(** The values of each row in the order of [columns]. *)
Definition values_of (columns : list string) (data : list row)
  : list (list cell) :=
  map (fun r => map (row_get r) columns) data.

(** [DatabaseConnection.bulk_insert(table, data, batch_size)]. *)
Definition db_bulk_insert (table : string) (data : list row) (batch_size : Z)
    (s : Server) : Server * outcome Z :=
  match data with
  | [] => (s, Returned 0)
  | first :: _ =>
    let columns := map fst first in
    let values := values_of columns data in
    match
      get_connection
        (fun conn =>
           match execute_batch (insert_do_nothing table columns) values
                   batch_size conn with
           | (conn, Raised e) => (conn, Raised e)
           | (conn, Returned _) => (conn, Returned (rowcount conn))
           end) s
    with
    | (s, Raised e) => (s, Raised e)
    | (s, Returned inserted) =>
      (write_log "bulk_insert_complete" table s, Returned inserted)
    end
  end.

(** [df.to_dict('records')]. *)
Definition to_dict_records (df : DataFrame) : list row :=
  map (fun i => map (fun c : string * Series =>
                       (fst c, mjoin (cells (snd c) !! i))) (data df))
    (seq 0 (index_len df)).

Section Loader.

(** [config.etl.batch_size]. *)
Variable config_batch_size : Z.

(** [WarehouseLoader.bulk_insert(data, table_name, batch_size)]. *)
Definition bulk_insert (data : list row) (table_name : string)
    (batch_size : option Z) (s : Server) : Server * outcome Z :=
  let batch_size :=
    match batch_size with
    | Some b => if Z.eqb b 0 then config_batch_size else b
    | None => config_batch_size
    end in
  match db_bulk_insert table_name data batch_size s with
  | (s, Returned inserted) =>
    (write_log "bulk_insert_successful" table_name s, Returned inserted)
  | (s, Raised e) =>
    (log_exception "bulk_insert_failed" table_name e s, Raised e)
  end.

(** The default of [update_columns]. *)
Definition default_update_columns (df : DataFrame)
    (conflict_columns : list string) : list string :=
  filter (fun c => c ∉ conflict_columns) (columns df).

(** [WarehouseLoader.upsert(df, table_name, conflict_columns,
    update_columns)]. *)
Definition upsert (df : DataFrame) (table_name : string)
    (conflict_columns : list string) (update_columns : option (list string))
    (s : Server) : Server * outcome Z :=
  let update_columns :=
    match update_columns with
    | None => default_update_columns df conflict_columns
    | Some u => u
    end in
  let data := to_dict_records df in
  let columns := columns df in
  let query :=
    insert_do_update table_name columns conflict_columns update_columns in
  let values := values_of columns data in
  match
    get_connection
      (fun conn =>
         match execute_batch query values config_batch_size conn with
         | (conn, Raised e) => (conn, Raised e)
         | (conn, Returned _) => (conn, Returned (rowcount conn))
         end) s
  with
  | (s, Returned upserted) =>
    (write_log "upsert_successful" table_name s, Returned upserted)
  | (s, Raised e) => (log_exception "upsert_failed" table_name e s, Raised e)
  end.

End Loader.
End Server.
End Warehouse.

(** ** Concrete datasets, rules, stores and tables used in the examples *)

Module Examples.
Import Validators Lock Warehouse.

(** A regular expression library in which a pattern matches the strings it
    is a prefix of, and an unbalanced parenthesis is not a pattern. *)
Definition prefix_match (pattern : string) : outcome (string -> bool) :=
  if String.eqb pattern "("
  then Raised (re_error "missing ), unterminated subpattern at position 0")
  else Returned (String.prefix pattern).
Definition parses_column (fmt : string) (l : list cell) : bool :=
  forallb (fun c => match c with Some (VStr _) => true | _ => false end) l.
Definition parses_value (fmt : string) (c : cell) : bool :=
  match c with Some (VStr _) => true | _ => false end.

(** [s.lower()] on ASCII text. *)
Definition lower_ascii (c : ascii) : ascii :=
  let n := nat_of_ascii c in
  if (Nat.leb 65 n && Nat.leb n 90)%bool then ascii_of_nat (n + 32) else c.
Fixpoint ascii_lower (s : string) : string :=
  match s with
  | EmptyString => EmptyString
  | String c r => String (lower_ascii c) (ascii_lower r)
  end.

Definition int_series (l : list Z) : Series :=
  {| dtype := "int64"; cells := map (fun z => Some (VInt z)) l |}.

(** [{price: [150, 500, 180], volume: [1000, 2000, 1500]}]. *)
Definition quotes : DataFrame :=
  {| index_len := 3;
     data := [("price", int_series [150; 500; 180]);
              ("volume", int_series [1000; 2000; 1500])] |}.

(** A single row whose price is both out of range and not an allowed value. *)
Definition one_quote : DataFrame :=
  {| index_len := 1; data := [("price", int_series [500])] |}.

Definition price_range : accuracy_kwargs :=
  {| value_ranges := [("price", (0, 300))]; categorical_values := [];
     regex_patterns := []; custom_rules := [] |}.

Definition range_and_category : accuracy_kwargs :=
  {| value_ranges := [("price", (0, 300))];
     categorical_values := [("price", [Some (VInt 100)])];
     regex_patterns := []; custom_rules := [] |}.



(** A predicate that raises whatever it is given. *)
Definition broken_rule : rule :=
  {| rule_func := fun _ => Raised (UserException "boom");
     rule_name := Some "broken" |}.


Definition positive_rule : rule :=
  {| rule_func := fun s => series_gt s 0; rule_name := Some "positive" |}.

Definition with_broken_rule : accuracy_kwargs :=
  {| value_ranges := [("price", (0, 300))]; categorical_values := [];
     regex_patterns := [];
     custom_rules := [("volume", positive_rule); ("price", broken_rule)] |}.






(** Nobody else touches the store, and a turn of the loop takes exactly as
    long as its sleep. *)
Definition alone : Z -> gmap string entry -> gmap string entry :=
  fun _ m => m.
Definition punctual : Z -> Z := fun _ => 0.

Definition handle_a : DistributedLock := new "prices" 3 1 "token-a".
Definition handle_b : DistributedLock := new "prices" 300 1 "token-b".


Definition empty_world : World := {| redis := ∅; clock := 0; trace := [] |}.

(** The lock is held by [handle_b] until time 300. *)
Definition held_by_b : World :=
  {| redis := {[ "etl:lock:prices" :=
                   {| e_value := "token-b"; e_expires := 300 |} ]};
     clock := 0; trace := [] |}.

(** [handle_a] acquired the lock at time 0 with a lease of 3 seconds; the
    lease ran out and [handle_b] acquired it at time 5. *)
Definition reacquired_by_b : World :=
  {| redis := {[ "etl:lock:prices" :=
                   {| e_value := "token-b"; e_expires := 305 |} ]};
     clock := 6; trace := [] |}.

(** The world in which [handle_a], after four attempts a second apart, gave
    up waiting for the lock held by [handle_b]. *)
Definition after_timeout : World :=
  Eval vm_compute in
    match acquire alone punctual 10 handle_a true None held_by_b with
    | Some (w, _) => w
    | None => held_by_b
    end.

(** The world in which [handle_a] holds the lock. *)
Definition after_acquire : World :=
  Eval vm_compute in
    match acquire alone punctual 10 handle_a true None empty_world with
    | Some (w, _) => w
    | None => empty_world
    end.

Definition returning_body : block Z := fun w => (w, Returned 7).
Definition raising_body : block Z :=
  fun w => (w, Raised (ValueError "load failed")).

Definition quote_row (id price : Z) : row :=
  [("id", Some (VInt id)); ("price", Some (VInt price))].

Definition five_rows : list row :=
  [quote_row 1 10; quote_row 2 20; quote_row 3 30; quote_row 4 40;
   quote_row 5 50].

(** The messages of a server. *)
Definition messages (c : sqlstate) : string :=
  match c with
  | syntax_error => "syntax error at or near )"
  | undefined_table => "relation does not exist"
  | invalid_column_reference =>
    "there is no unique or exclusion constraint matching the ON CONFLICT specification"
  | unique_violation => "duplicate key value violates unique constraint"
  end.

(** A server with an empty table [prices] whose key is [id], and which takes
    any row. *)
Definition empty_prices : Server :=
  {| committed := {[ "prices" := {| unique_keys := [["id"]];
                                    refuses := fun _ => None;
                                    rows := [] |} ]};
     received := []; log := [] |}.

(** The same table with an integer column [price]: it refuses text there. *)
Definition integer_price (r : row) : option exn :=
  match row_get r "price" with
  | Some (VStr _) => Some (DataError "invalid input syntax for type integer")
  | _ => None
  end.

Definition typed_prices : Server :=
  {| committed := {[ "prices" := {| unique_keys := [["id"]];
                                    refuses := integer_price;
                                    rows := [] |} ]};
     received := []; log := [] |}.

(** [{id: [1, 2, 2, 3]}]. *)
Definition ids : DataFrame :=
  {| index_len := 4; data := [("id", int_series [1; 2; 2; 3])] |}.

(** [{flag: [1, True]}], a column of dtype object. *)
Definition flags : DataFrame :=
  {| index_len := 2;
     data := [("flag", {| dtype := "object";
                          cells := [Some (VInt 1); Some (VBool true)] |})] |}.

Definition unique_id : consistency_kwargs :=
  {| data_types := []; unique_columns := ["id"]; date_formats := [];
     cross_field_rules := [] |}.

(** A dataset without rows. *)
Definition no_rows : DataFrame :=
  {| index_len := 0; data := [("id", int_series [])] |}.

Definition one_price : DataFrame :=
  {| index_len := 1;
     data := [("id", int_series [1]); ("price", int_series [7])] |}.

(** A hundred rows of which the first [n] are null. *)
Definition nulls_then_values (n : nat) : Series :=
  {| dtype := "float64";
     cells := replicate n None ++ replicate (100 - n) (Some (VInt 1)) |}.

Definition seven_in_a_hundred : DataFrame :=
  {| index_len := 100; data := [("price", nulls_then_values 7)] |}.

(** A frame of [n] rows. *)
Definition rows_of (n : nat) : DataFrame :=
  {| index_len := n; data := [("id", int_series (map Z.of_nat (seq 0 n)))] |}.

End Examples.

(** ** Further notions about the validators *)

Module Notions.
Import Validators.

(** The ['violations'] (or ['duplicates'], ['invalid_count']) entry of a
    detail of the accuracy and consistency validators. *)
Definition violations_of (d : detail) : Z :=
  match d with
  | value_range_check _ _ _ v _ => v
  | categorical_values_check _ _ v _ => v
  | regex_pattern_check _ _ v _ => v
  | custom_rule_check _ _ v => v
  | uniqueness_check _ v => v
  | date_format_check _ _ v => v
  | cross_field_check _ _ v => v
  | _ => 0
  end.



(** [validate(df, custom_rules={column: r})]. *)
Definition only_rule (column : string) (r : rule) : accuracy_kwargs :=
  {| value_ranges := []; categorical_values := []; regex_patterns := [];
     custom_rules := [(column, r)] |}.

(** [validate(df, unique_columns=[column])]. *)
Definition only_unique (column : string) : consistency_kwargs :=
  {| data_types := []; unique_columns := [column]; date_formats := [];
     cross_field_rules := [] |}.

(** A declared column that is present conforms to its declaration. *)
Definition column_conforms (lower : string -> string) (df : DataFrame)
    (item : string * schema_def) : Prop :=
  match col df (fst item) with
  | None => True
  | Some s =>
    (default true (sd_nullable (snd item)) = false -> Forall is_Some (cells s))
    /\ (forall ty, sd_type (snd item) = Some ty -> ty ≠ "" ->
                   _is_type_compatible lower (dtype s) ty = true)
  end.

(** The counts of a tally are not negative and add up to at most [n] times
    the number of rows. *)
Definition counts_within (df : DataFrame) (n : nat) (t : tally) : Prop :=
  0 <= t_passed_count t /\ 0 <= t_failed_count t
  /\ t_passed_count t + t_failed_count t <= len df * Z.of_nat n.

(** The null percentage of a column, as the validator computes it, does
    not exceed the threshold. *)
Definition within_null_threshold (df : DataFrame) (threshold : float)
    (c : string * Series) : Prop :=
  float_gt (null_percentage df (snd c)) threshold = false.

(** The failed count is the sum of the violations the details report, and
    every detail reports at least one. *)
Definition failed_is_reported (t : tally) : Prop :=
  t_failed_count t = sum_Z (map violations_of (t_error_details t))
  /\ Forall (fun d => 0 < violations_of d) (t_error_details t).


(** A cell of the column is text. *)
Definition is_text (c : cell) : bool :=
  match c with Some (VStr _) => true | _ => false end.
Definition has_text (s : Series) : bool := existsb is_text (cells s).

End Notions.

(** ** Further notions about the lock *)

Module LockNotions.
Import Lock.

(** The world [w] seen at clock reading [t], nobody having touched the store
    in between. *)
Definition at_time (t : Z) (w : World) : World :=
  {| redis := redis w; clock := t; trace := trace w |}.

(** The world a successful first attempt of [self] on a free lock leaves. *)
Definition holding (self : DistributedLock) (w : World) : World :=
  {| redis := <[lock_name self :=
                  {| e_value := lock_id self;
                     e_expires := clock w + timeout self |}]> (redis w);
     clock := clock w;
     trace := trace w
              ++ [ev_set_nx (lock_name self) (lock_id self) (timeout self) true;
                  ev_log "lock_acquired" (lock_name self)] |}.

(** The other clients leave the key [key] alone. *)
Definition leave_alone (key : string)
    (others : Z -> gmap string entry -> gmap string entry) : Prop :=
  forall t m, others t m !! key = m !! key.

End LockNotions.

(** ** Further notions about the warehouse *)

Module WarehouseNotions.
Import Warehouse.

(** The connection [get_connection] hands to its body. *)
Definition fresh_connection (s : Server) : Connection :=
  {| tables := committed s; rowcount := -1; calls := [] |}.

(** The statement inserts a row into [table] over [columns]. *)
Definition is_insert (table : string) (columns : list string)
    (st : statement) : Prop :=
  exists args, st = insert_do_nothing table columns args.

End WarehouseNotions.

(** ** etl/loaders/base.py and [WarehouseLoader.load] *)

Module Loading.
Import Lock Warehouse.

(** [s.split('.')]; [cur] is the piece being read. *)
Fixpoint split_dot (s : string) (cur : string) : list string :=
  match s with
  | EmptyString => [cur]
  | String c r =>
    if Ascii.eqb c "."%char then cur :: split_dot r ""
    else split_dot r (cur +:+ String c "")
  end.

(** [table.split('.')[-1]] and
    [table.split('.')[0] if '.' in table else None]. *)
Definition sql_name (table : string) : string :=
  List.last (split_dot table "") "".
Definition sql_schema (table : string) : option string :=
  match split_dot table "" with
  | first :: _ :: _ => Some first
  | _ => None
  end.

Record load_kwargs := {
  kw_table_name : option string;
  kw_if_exists : option string;
  kw_use_lock : option bool;
  kw_lock_name : option string
}.

(** The attributes of a loader that its hooks write. *)
Record BaseLoader := {
  loader_name : string;
  loaded_count : Z;
  start_time : option Z;
  end_time : option Z
}.

(** [BaseLoader.__init__(name, config)]. *)
Definition new_loader (name : string) : BaseLoader :=
  {| loader_name := name; loaded_count := 0; start_time := None;
     end_time := None |}.

(** The state a load runs in: the lock store with the clock, and the
    database server. *)
Definition state := (World * Server)%type.

(** [pre_load]: stamps [start_time] ([datetime.now()]). *)
Definition pre_load (self : BaseLoader) (st : state) : BaseLoader * state :=
  ({| loader_name := loader_name self; loaded_count := loaded_count self;
      start_time := Some (clock (fst st)); end_time := end_time self |},
   (fst st, write_log "load_started" (loader_name self) (snd st))).

(** [(self.end_time - self.start_time).total_seconds()], when both are set. *)
Definition duration (self : BaseLoader) : option Z :=
  match start_time self, end_time self with
  | Some t0, Some t1 => Some (t1 - t0)
  | _, _ => None
  end.

(** [post_load]: stamps [end_time], stores the count. *)
Definition post_load (self : BaseLoader) (count : Z) (st : state)
  : BaseLoader * state :=
  ({| loader_name := loader_name self; loaded_count := count;
      start_time := start_time self; end_time := Some (clock (fst st)) |},
   (fst st, write_log "load_completed" (loader_name self) (snd st))).

(** The abstract method [load], applied to its arguments; [None] when the
    lock acquisition inside it is still running. *)
Definition loading := state -> option (state * outcome Z).

(** [BaseLoader.execute(df, **kwargs)]. *)
Definition execute (self : BaseLoader) (load : loading) (st : state)
  : option (BaseLoader * state * outcome Z) :=
  let '(self, st) := pre_load self st in
  match load st with
  | None => None
  | Some (st, Raised e) => Some (self, st, Raised e)
  | Some (st, Returned count) =>
    let '(self, st) := post_load self count st in
    Some (self, st, Returned count)
  end.

Section Load.

Variable others : Z -> gmap string entry -> gmap string entry.
Variable lag : Z -> Z.

(** [config.etl.batch_size]. *)
Variable config_batch_size : Z.

(** [df.to_sql(name, schema, con=engine, if_exists, index=False,
    method='multi', chunksize)], taken as given. *)
Variable to_sql :
  DataFrame -> string -> option string -> string -> Z -> Server ->
  Server * outcome unit.

(** The seconds a write takes. *)
Variable write_seconds : Z.

(** The world after the write: only the clock has moved. *)
Definition written (w : World) : World :=
  {| redis := redis w; clock := clock w + write_seconds; trace := trace w |}.

(** [DatabaseConnection.load_dataframe(df, table, if_exists)]. *)
Definition load_dataframe (df : DataFrame) (table if_exists : string)
    (s : Server) : Server * outcome Z :=
  match to_sql df (sql_name table) (sql_schema table) if_exists
          config_batch_size s with
  | (s, Returned _) => (write_log "dataframe_loaded" table s, Returned (len df))
  | (s, Raised e) =>
    (log_exception "dataframe_load_failed" table e s, Raised e)
  end.

(** [WarehouseLoader._perform_load(df, table_name, if_exists)]. *)
Definition _perform_load (df : DataFrame) (table_name if_exists : string)
    (s : Server) : Server * outcome Z :=
  match load_dataframe df table_name if_exists s with
  | (s, Returned loaded_count) =>
    (write_log "warehouse_load_successful" table_name s, Returned loaded_count)
  | (s, Raised e) =>
    (log_exception "warehouse_load_failed" table_name e s, Raised e)
  end.

(** The block under [with DistributedLock(lock_name).context():].  What the
    write leaves on the server and how it ended are handed out of the block
    as its value, so that the server is known on both exits. *)
Definition locked_write (df : DataFrame) (table_name if_exists : string)
    (s : Server) : block (Server * outcome Z) :=
  fun w => (written w, Returned (_perform_load df table_name if_exists s)).

(** [DistributedLock(lock_name)] as [load] creates it, with the default
    lease of 300 seconds and retry interval of 1; [uuid] is its token. *)
Definition load_lock (uuid table_name : string) (kwargs : load_kwargs)
  : DistributedLock :=
  new (default ("load_" +:+ table_name) (kw_lock_name kwargs)) 300 1 uuid.

(** [WarehouseLoader.load(df, **kwargs)]. *)
Definition load (fuel : nat) (uuid : string) (df : DataFrame)
    (kwargs : load_kwargs) : loading :=
  fun st =>
    let '(w, s) := st in
    match kw_table_name kwargs with
    | None | Some "" => Some (st, Raised (ValueError "table_name is required"))
    | Some table_name =>
      let if_exists := default "append" (kw_if_exists kwargs) in
      let use_lock := default true (kw_use_lock kwargs) in
      if use_lock then
        match
          context others lag fuel (load_lock uuid table_name kwargs) true None
            (locked_write df table_name if_exists s) w
        with
        | None => None
        | Some (w, Raised e) => Some ((w, s), Raised e)
        | Some (w, Returned (s, r)) => Some ((w, s), r)
        end
      else
        let '(s, r) := _perform_load df table_name if_exists s in
        Some ((w, s), r)
    end.

(** [WarehouseLoader().execute(df, **kwargs)]. *)
Definition warehouse_execute (fuel : nat) (uuid : string) (df : DataFrame)
    (kwargs : load_kwargs) (st : state)
  : option (BaseLoader * state * outcome Z) :=
  execute (new_loader "warehouse_loader") (load fuel uuid df kwargs) st.

End Load.
End Loading.

(** ** More concrete values for the examples *)

Module MoreExamples.
Import Validators Lock Warehouse Loading Examples.

(** A [to_sql] that appends the rows of the frame to the named table and
    fails on a table that does not exist. *)
Definition append_rows : DataFrame -> string -> option string -> string ->
                         Z -> Server -> Server * outcome unit :=
  fun df name schema if_exists chunksize s =>
    match committed s !! name with
    | None => (s, Raised (server_error messages undefined_table))
    | Some t =>
      ({| committed :=
            <[name := {| unique_keys := unique_keys t; refuses := refuses t;
                         rows := rows t ++ to_dict_records df |}]> (committed s);
          received := received s; log := Warehouse.log s |}, Returned tt)
    end.

Definition load_prices : load_kwargs :=
  {| kw_table_name := Some "prices"; kw_if_exists := None;
     kw_use_lock := None; kw_lock_name := None |}.

(** The lock that [load] takes for the table [prices] is held by another
    run. *)
Definition load_lock_taken : World :=
  {| redis := {[ "etl:lock:load_prices" :=
                   {| e_value := "token-b"; e_expires := 1000 |} ]};
     clock := 0; trace := [] |}.

(** The world in which the lock for the table [prices] could not be had
    within its 300 seconds. *)
Definition load_timed_out : World :=
  Eval vm_compute in
    match acquire alone punctual 400 (load_lock "token-a" "prices" load_prices)
            true None load_lock_taken
    with
    | Some (w, _) => w
    | None => empty_world
    end.

(** A frame whose column [symbol] has one null out of three. *)
Definition with_null : DataFrame :=
  {| index_len := 3;
     data := [("symbol",
               {| dtype := "object";
                  cells := [Some (VStr "AAPL"); None; Some (VStr "MSFT")] |});
              ("price", int_series [150; 2800; 300])] |}.

(** A callable without [__name__] that accepts the cells above 200. *)
Definition nameless_rule : rule :=
  {| rule_func := fun s => series_gt s 200; rule_name := None |}.

Definition only_nameless_rule : accuracy_kwargs :=
  {| value_ranges := []; categorical_values := []; regex_patterns := [];
     custom_rules := [("price", nameless_rule)] |}.



(** A row whose price is text. *)
Definition mistyped_rows : list row :=
  [quote_row 1 10; [("id", Some (VInt 2)); ("price", Some (VStr "n/a"))]].

End MoreExamples.

(** * Properties *)

Import Validators Notions.

Section ValidatorProperties.

Variable re_compile : string -> outcome (string -> bool).
Variable to_datetime_column : string -> list cell -> bool.
Variable to_datetime_value : string -> cell -> bool.
Variable lower : string -> string.

Local Abbreviation validate :=
  (validate re_compile to_datetime_column to_datetime_value lower).
Local Abbreviation result_of :=
  (result_of re_compile to_datetime_column to_datetime_value lower).
Local Abbreviation checks_log :=
  (checks_log re_compile to_datetime_column to_datetime_value).
Local Abbreviation checks_error :=
  (checks_error re_compile to_datetime_column to_datetime_value).

Lemma snoc_nonempty {A} (l : list A) (x : A) `{!Decision (l ++ [x] = [])} :
  bool_decide (l ++ [x] = []) = false.
Proof. apply bool_decide_eq_false. destruct l; discriminate. Qed.

Lemma length_zero_empty {A} (l : list A) `{!Decision (l = [])} :
  Nat.eqb (length l) 0 = bool_decide (l = []).
Proof.
  destruct l; simpl; symmetry;
    [apply bool_decide_eq_true | apply bool_decide_eq_false]; congruence.
Qed.

(** Case analysis on a test [if missing_columns:] of a set. *)
Ltac case_nonempty :=
  match goal with
  | |- context [bool_decide (?s ≠ ∅)] => destruct (bool_decide (s ≠ ∅))
  end.

(** An invariant of a left fold is preserved when every step preserves it. *)
Lemma fold_left_invariant {S X} (P : S -> Prop) (f : S -> X -> S) (l : list X) :
  (forall s x, P s -> P (f s x)) -> forall s, P s -> P (fold_left f l s).
Proof.
  intros Hstep. induction l as [|x l IH]; intros s Hs; simpl; auto.
Qed.

Lemma column_property_step_tracks df st item :
  flag_tracks_errors st ->
  flag_tracks_errors (column_property_step lower df st item).
Proof.
  unfold flag_tracks_errors, column_property_step.
  destruct item as [column sd]. intros Hst.
  destruct (col df column) as [s|]; [|exact Hst].
  destruct (negb (default true (sd_nullable sd)) && existsb id (isnull s));
    destruct (sd_type sd) as [ty|]; simpl.
  all: try destruct (negb (String.eqb ty "")
                     && negb (_is_type_compatible lower (dtype s) ty)).
  all: simpl; rewrite ?snoc_nonempty; auto.
Qed.

Lemma schema_checks_tracks df kwargs :
  flag_tracks_errors (schema_checks lower df kwargs).
Proof.
  unfold schema_checks.
  apply fold_left_invariant; [apply column_property_step_tracks|].
  unfold flag_tracks_errors.
  destruct (default true (allow_extra_columns kwargs)); simpl;
    repeat case_nonempty; simpl; rewrite ?snoc_nonempty; reflexivity.
Qed.

Lemma completeness_passed_tracks self df kwargs :
  passed (completeness_result self df kwargs)
  = bool_decide (error_details (completeness_result self df kwargs) = []).
Proof.
  unfold completeness_result.
  destruct (Z.ltb (len df) (default 1 (min_row_count kwargs)));
    case_nonempty;
    destruct (null_violations df (default 0%float (null_threshold kwargs)));
    simpl; rewrite ?snoc_nonempty; reflexivity.
Qed.

Lemma schema_passed_tracks self df kwargs :
  passed (schema_result lower self df kwargs)
  = bool_decide (error_details (schema_result lower self df kwargs) = []).
Proof.
  unfold schema_result.
  pose proof (schema_checks_tracks df kwargs) as H.
  unfold flag_tracks_errors in H.
  destruct (schema_checks lower df kwargs) as [errs flag]. exact H.
Qed.

Lemma result_passed_tracks k self df (kwargs : kwargs_of k) :
  passed (result_of k self df kwargs)
  = bool_decide (error_details (result_of k self df kwargs) = []).
Proof.
  destruct k; simpl.
  - apply completeness_passed_tracks.
  - apply length_zero_empty.
  - apply length_zero_empty.
  - apply schema_passed_tracks.
Qed.

(** What the tail of [validate] hands back: the built result, or the
    strict-mode error. *)
Lemma report_outcome self logs r :
  report self logs r
  = (logs ++ log_result r,
     if strict_mode self && negb (passed r)
     then Raised (ValueError (failure_message r)) else Returned r).
Proof.
  unfold report, raise_if_failed.
  destruct (strict_mode self && negb (passed r)); reflexivity.
Qed.

(** [validate] is its checks, and then, unless one of them raised, the
    report of the result. *)
Lemma validate_report k self df (kwargs : kwargs_of k) :
  validate k self df kwargs
  = match checks_error k df kwargs with
    | Some e => (checks_log k df kwargs, Raised e)
    | None => report self (checks_log k df kwargs) (result_of k self df kwargs)
    end.
Proof. destruct k; reflexivity. Qed.


(** C1.  For each of the four validator kinds, every dataset and every
    ruleset, the result built by [validate] has [passed] true exactly when
    [error_details] is empty, and so has the result [validate] returns. *)
Theorem passed_iff_no_error_details k self df (kwargs : kwargs_of k) :
  passed (result_of k self df kwargs)
  = bool_decide (error_details (result_of k self df kwargs) = [])
  /\ match snd (validate k self df kwargs) with
     | Returned r => r = result_of k self df kwargs
                     /\ passed r = bool_decide (error_details r = [])
     | Raised _ => True
     end.
Proof.
  split; [apply result_passed_tracks|].
  rewrite validate_report.
  destruct (checks_error k df kwargs); [exact I|].
  rewrite report_outcome. simpl.
  destruct (strict_mode self && negb _); [exact I|].
  split; [reflexivity | apply result_passed_tracks].
Qed.


(** *** Counts of the accuracy validator *)

Lemma accuracy_total_is_sum self df kwargs :
  passed_records (accuracy_result re_compile self df kwargs)
  + failed_records (accuracy_result re_compile self df kwargs)
  = total_records (accuracy_result re_compile self df kwargs).
Proof. reflexivity. Qed.

(** *** Loops of checks *)


(** An invariant of the tally is preserved by a loop when every check
    preserves it. *)
Lemma for_each_invariant_in {X} (P : tally -> Prop)
    (step : tally -> X -> checked) (l : list X) :
  (forall t x, x ∈ l -> P t -> P (fst (step t x))) ->
  forall t, P t -> P (fst (for_each step l t)).
Proof.
  induction l as [|x l IH]; intros Hstep t Ht; simpl; [exact Ht|].
  pose proof (Hstep t x ltac:(apply list_elem_of_here) Ht) as Hx.
  destruct (step t x) as [t1 [e|]]; [exact Hx|].
  apply IH; [|exact Hx].
  intros t' y Hy. apply Hstep. apply list_elem_of_further. exact Hy.
Qed.

Lemma and_then_invariant_in {X} (P : tally -> Prop) (c : checked)
    (step : tally -> X -> checked) (l : list X) :
  (forall t x, x ∈ l -> P t -> P (fst (step t x))) ->
  P (fst c) -> P (fst (and_then c step l)).
Proof.
  intros Hstep Hc. destruct c as [t [e|]]; [exact Hc|].
  cbn [and_then]. apply for_each_invariant_in; assumption.
Qed.


(** *** Predicates that raise *)















End ValidatorProperties.

Import Lock.

Section LockProperties.

Variable others : Z -> gmap string entry -> gmap string entry.
Variable lag : Z -> Z.

Local Abbreviation acquire_loop := (acquire_loop others lag).
Local Abbreviation acquire := (acquire others lag).
Local Abbreviation context := (context others lag).
Local Abbreviation with_self := (with_self others lag).

(** *** The store primitives *)

Lemma get_record w e key : get (record e w) key = get w key.
Proof. reflexivity. Qed.

Lemma set_nx_failed key value ex w tok :
  0 < ex ->
  get w key = Some tok ->
  set_nx key value ex w
  = (record (ev_set_nx key value ex false) w, Returned false).
Proof.
  intros Hex H. unfold set_nx.
  destruct (Z.leb_spec ex 0); [lia|]. rewrite H. reflexivity.
Qed.

(** A lease that is not positive is refused, whatever the key holds. *)
Lemma set_nx_refused key value ex w :
  ex <= 0 ->
  set_nx key value ex w
  = (record (ev_set_nx key value ex false) w, Raised invalid_expire_time).
Proof.
  intros Hex. unfold set_nx. destruct (Z.leb_spec ex 0); [reflexivity | lia].
Qed.

(** One attempt: the clock does not move and the call is recorded; an attempt
    that is answered was made with a positive lease; and a failed attempt
    leaves the keyspace as it was, held by somebody. *)
Lemma set_nx_spec key value ex w :
  clock (fst (set_nx key value ex w)) = clock w
  /\ (forall e, snd (set_nx key value ex w) = Raised e -> ex <= 0)
  /\ forall ok,
      snd (set_nx key value ex w) = Returned ok ->
      0 < ex
      /\ trace (fst (set_nx key value ex w))
         = trace w ++ [ev_set_nx key value ex ok]
      /\ (ok = false ->
          redis (fst (set_nx key value ex w)) = redis w
          /\ exists tok, get w key = Some tok).
Proof.
  unfold set_nx. destruct (Z.leb_spec ex 0) as [Hex|Hex].
  - split; [reflexivity|]. split; [intros; exact Hex | discriminate].
  - destruct (get w key) as [tok|] eqn:Hget; simpl.
    + split; [reflexivity|]. split; [discriminate|].
      intros ok [= <-]. split; [exact Hex|]. split; [reflexivity|].
      intros _. split; [reflexivity | eauto].
    + split; [reflexivity|]. split; [discriminate|].
      intros ok [= <-]. split; [exact Hex|]. split; [reflexivity|].
      discriminate.
Qed.

Lemma release_spec self w :
  release self w
  = if bool_decide (get w (lock_name self) = Some (lock_id self))
    then ({| redis := delete (lock_name self) (redis w);
             clock := clock w;
             trace := trace w
                      ++ [ev_eval (lock_name self) (lock_id self) true;
                          ev_log "lock_released" (lock_name self)] |}, true)
    else (record (ev_eval (lock_name self) (lock_id self) false) w, false).
Proof.
  unfold release, eval_lua_script.
  destruct (bool_decide (get w (lock_name self) = Some (lock_id self)));
    [|reflexivity].
  unfold record. simpl. rewrite <- app_assoc. reflexivity.
Qed.

(** [release] always sends the script, whatever it finds. *)
Lemma release_trace self w :
  exists deleted rest,
    trace (fst (release self w))
    = trace w ++ ev_eval (lock_name self) (lock_id self) deleted :: rest.
Proof.
  rewrite release_spec.
  destruct (bool_decide (get w (lock_name self) = Some (lock_id self)));
    simpl; eauto.
Qed.

Lemma get_Some_lookup w key tok :
  get w key = Some tok ->
  exists e, redis w !! key = Some e /\ e_value e = tok.
Proof.
  unfold get. destruct (redis w !! key) as [e|]; [|discriminate].
  destruct (Z.ltb (clock w) (e_expires e)); [|discriminate].
  intros [= <-]. eauto.
Qed.

(** C2.  [release] deletes the entry of the lock exactly when the store holds
    this handle's token under the lock's name, and returns whether it did; if
    the store holds another token (the lease ran out and another handle
    acquired the lock), it returns false and the store is unchanged. *)
Theorem release_compare_and_delete self w :
  redis (fst (release self w))
  = (if bool_decide (get w (lock_name self) = Some (lock_id self))
     then delete (lock_name self) (redis w) else redis w)
  /\ snd (release self w)
     = bool_decide (get w (lock_name self) = Some (lock_id self))
  /\ (snd (release self w) = true <-> redis (fst (release self w)) ≠ redis w)
  /\ (forall tok,
        get w (lock_name self) = Some tok -> tok ≠ lock_id self ->
        snd (release self w) = false
        /\ redis (fst (release self w)) = redis w
        /\ get (fst (release self w)) (lock_name self) = Some tok).
Proof.
  rewrite release_spec.
  case_bool_decide as Hown; simpl.
  - split; [reflexivity|]. split; [reflexivity|]. split.
    + split; [|reflexivity]. intros _ Heq.
      destruct (get_Some_lookup _ _ _ Hown) as (e & He & _).
      rewrite <- Heq, lookup_delete_eq in He. discriminate.
    + intros tok Hget Hne. congruence.
  - split; [reflexivity|]. split; [reflexivity|]. split.
    + split; [discriminate | intros H; contradiction].
    + intros tok Hget Hne. repeat split. exact Hget.
Qed.

(** *** The acquisition loop *)

(** One turn of the loop. *)
Lemma acquire_loop_step self blocking start_time max_wait fuel w :
  acquire_loop (S fuel) self blocking start_time max_wait w
  = match set_nx (lock_name self) (lock_id self) (timeout self) w with
    | (w, Raised e) => Some (w, Raised e)
    | (w, Returned acquired) =>
      if acquired
      then Some (record (ev_log "lock_acquired" (lock_name self)) w,
                 Returned true)
      else if negb blocking then Some (w, Returned false)
      else if Z.leb max_wait (clock w - start_time)
      then Some (record (ev_log "lock_acquisition_timeout" (lock_name self)) w,
                 Returned false)
      else
        match sleep others lag (retry_interval self) w with
        | (w, Raised e) => Some (w, Raised e)
        | (w, Returned _) =>
          acquire_loop fuel self blocking start_time max_wait w
        end
    end.
Proof. reflexivity. Qed.

Lemma sleep_spec seconds w :
  sleep others lag seconds w
  = if Z.ltb seconds 0
    then (w, Raised (ValueError "sleep length must be non-negative"))
    else ({| redis := others (clock w) (redis w);
             clock := clock w + seconds + lag (clock w);
             trace := trace w ++ [ev_sleep seconds] |}, Returned tt).
Proof. reflexivity. Qed.

(** A run of the loop that returns: [k] failed attempts, each followed by a
    sleep of the retry interval, then one last attempt whose result is the
    result of the loop.  The last reading of the clock is the first at which
    a blocking call that gives up finds the wait over. *)
Lemma acquire_loop_spec self blocking start_time max_wait fuel :
  forall w w' b,
    acquire_loop fuel self blocking start_time max_wait w
    = Some (w', Returned b) ->
    exists k evs,
      trace w' = trace w ++ evs
      /\ attempts evs = replicate k false ++ [b]
      /\ sleeps evs = replicate k (retry_interval self)
      /\ (blocking = false -> k = 0%nat)
      /\ (b = false -> blocking = true -> max_wait <= clock w' - start_time)
      /\ (k = 0%nat -> clock w' = clock w)
      /\ (k ≠ 0%nat ->
          exists t, t - start_time < max_wait
                    /\ clock w' = t + retry_interval self + lag t)
      /\ (b = false -> never_store (lock_id self) others ->
          foreign (lock_id self) (redis w) ->
          exists tok, get w' (lock_name self) = Some tok
                      /\ tok ≠ lock_id self).
Proof.
  induction fuel as [|fuel IH]; intros w w' b Hrun; [discriminate|].
  rewrite acquire_loop_step in Hrun.
  destruct (set_nx_spec (lock_name self) (lock_id self) (timeout self) w)
    as (Hclock & _ & Hanswer).
  destruct (set_nx (lock_name self) (lock_id self) (timeout self) w)
    as [w1 [ok|e]] eqn:Hset; [|discriminate].
  simpl in Hclock, Hanswer.
  destruct (Hanswer ok eq_refl) as (_ & Htrace & Hfail).
  assert (Hheld : ok = false -> never_store (lock_id self) others ->
                  foreign (lock_id self) (redis w) ->
                  exists tok, get w1 (lock_name self) = Some tok
                              /\ tok ≠ lock_id self).
  { intros Hf _ Hforeign. destruct (Hfail Hf) as (Hredis & tok & Hget).
    exists tok. split.
    - unfold get in *. rewrite Hredis, Hclock. exact Hget.
    - destruct (get_Some_lookup _ _ _ Hget) as (e & He & <-).
      apply (Hforeign _ _ He). }
  destruct ok.
  { injection Hrun as <- <-.
    exists 0%nat, [ev_set_nx (lock_name self) (lock_id self) (timeout self) true;
                   ev_log "lock_acquired" (lock_name self)].
    simpl. rewrite Htrace, <- app_assoc.
    repeat split; try reflexivity; try discriminate; try congruence. }
  destruct blocking; simpl in Hrun.
  2:{ injection Hrun as <- <-.
      exists 0%nat,
        [ev_set_nx (lock_name self) (lock_id self) (timeout self) false].
      repeat split; auto; try discriminate; congruence. }
  destruct (Z.leb max_wait (clock w1 - start_time)) eqn:Hwait.
  { injection Hrun as <- <-.
    exists 0%nat,
      [ev_set_nx (lock_name self) (lock_id self) (timeout self) false;
       ev_log "lock_acquisition_timeout" (lock_name self)].
    simpl. rewrite Htrace, <- app_assoc.
    repeat split; try reflexivity; try discriminate; try congruence.
    - intros _ _. apply Z.leb_le. exact Hwait.
    - intros Hf Hns Hfo. destruct (Hheld Hf Hns Hfo) as (tok & Hget & Hne).
      exists tok. split; [exact Hget | exact Hne]. }
  apply Z.leb_gt in Hwait.
  rewrite sleep_spec in Hrun.
  destruct (Z.ltb (retry_interval self) 0); [discriminate|].
  destruct (IH _ _ _ Hrun)
    as (k & evs & Htr & Hatt & Hsl & Hk & Hto & Hk0 & Hlast & Hfo).
  exists (S k),
    (ev_set_nx (lock_name self) (lock_id self) (timeout self) false
     :: ev_sleep (retry_interval self) :: evs).
  split.
  { rewrite Htr. simpl. rewrite Htrace, <- !app_assoc. reflexivity. }
  split; [simpl; rewrite Hatt; reflexivity|].
  split; [simpl; rewrite Hsl; reflexivity|].
  split; [discriminate|].
  split; [exact Hto|].
  split; [discriminate|].
  split.
  { intros _. destruct k as [|k].
    - exists (clock w1). split; [lia|]. rewrite (Hk0 eq_refl). reflexivity.
    - apply Hlast. discriminate. }
  intros Hf Hns Hforeign. apply (Hfo Hf Hns).
  simpl. apply Hns. destruct (Hfail eq_refl) as (Hredis & _).
  rewrite Hredis. exact Hforeign.
Qed.




(** C4.  The scoped acquisition raises when [acquire] returns false, without
    running the body; when [acquire] returns true it runs the body and then
    [release], whether the body returned or raised, and hands on what the body
    returned or raised. *)
Theorem context_raises_or_releases {A} fuel self blocking timeout_arg
    (body : block A) w w1 acquired :
  acquire fuel self blocking timeout_arg w = Some (w1, Returned acquired) ->
  (acquired = false ->
   context fuel self blocking timeout_arg body w
   = Some (w1, Raised (RuntimeError
                         ("Failed to acquire lock: " +:+ lock_name self))))
  /\ (acquired = true ->
      context fuel self blocking timeout_arg body w
      = Some (fst (release self (fst (body w1))), snd (body w1))
      /\ exists deleted rest,
          trace (fst (release self (fst (body w1))))
          = trace (fst (body w1))
            ++ ev_eval (lock_name self) (lock_id self) deleted :: rest).
Proof.
  intros Hacq. unfold Lock.context. rewrite Hacq. split.
  - intros ->. reflexivity.
  - intros ->. simpl. split; [|apply release_trace].
    destruct (body w1) as [w2 r]. simpl.
    destruct (release self w2). reflexivity.
Qed.

(** C9.  Entering the lock with a plain [with] statement when acquisition
    fails: no error is raised by the protocol, the body runs, on a store in
    which the lock belongs to another token, and [release] is still sent on
    exit; the statement ends the way the body ended. *)
Theorem with_self_ignores_failed_acquire {A} fuel self (body : block A) w w1 :
  never_store (lock_id self) others ->
  foreign (lock_id self) (redis w) ->
  acquire fuel self true None w = Some (w1, Returned false) ->
  with_self fuel self body w
  = Some (fst (release self (fst (body w1))), snd (body w1))
  /\ (exists tok, get w1 (lock_name self) = Some tok /\ tok ≠ lock_id self)
  /\ (exists k evs, trace w1 = trace w ++ evs
                    /\ attempts evs = replicate (S k) false)
  /\ exists deleted rest,
      trace (fst (release self (fst (body w1))))
      = trace (fst (body w1))
        ++ ev_eval (lock_name self) (lock_id self) deleted :: rest.
Proof.
  intros Hns Hforeign Hacq.
  split; [|split; [|split]].
  - unfold Lock.with_self, __enter__, __exit__. rewrite Hacq.
    destruct (body w1) as [w2 r]. simpl.
    destruct (release self w2). reflexivity.
  - destruct (acquire_loop_spec _ _ _ _ _ _ _ _ Hacq)
      as (k & evs & _ & _ & _ & _ & _ & _ & _ & Hheld).
    apply Hheld; auto.
  - destruct (acquire_loop_spec _ _ _ _ _ _ _ _ Hacq)
      as (k & evs & Htr & Hatt & _).
    exists k, evs. split; [exact Htr|].
    rewrite Hatt. clear. induction k as [|k IH]; simpl; [reflexivity|].
    f_equal. exact IH.
  - apply release_trace.
Qed.

End LockProperties.

Import Warehouse.

Section WarehouseProperties.

(** *** Pages of a batch *)

Lemma paginate_step {A} (page_size : nat) (page : list A) x seq :
  _paginate page_size page (x :: seq)
  = if Nat.eqb (length (page ++ [x])) page_size
    then (page ++ [x]) :: _paginate page_size [] seq
    else _paginate page_size (page ++ [x]) seq.
Proof. reflexivity. Qed.

(** The pages, in order, are the statements, in order: nothing is lost,
    repeated or moved. *)
Lemma paginate_concat {A} (page_size : nat) (seq page : list A) :
  concat (_paginate page_size page seq) = page ++ seq.
Proof.
  revert page. induction seq as [|x seq IH]; intros page.
  - destruct page; simpl; rewrite ?app_nil_r; reflexivity.
  - rewrite paginate_step.
    destruct (Nat.eqb (length (page ++ [x])) page_size); cbn [concat];
      rewrite IH; cbn [app]; rewrite <- ?app_assoc; reflexivity.
Qed.

(** A page that has begun is sent, and begins as it began. *)
Lemma paginate_begun {A} (page_size : nat) (seq : list A) :
  forall x page, exists p rest,
    _paginate page_size (x :: page) seq = (x :: p) :: rest.
Proof.
  induction seq as [|y seq IH]; intros x page; [simpl; eauto|].
  rewrite paginate_step.
  destruct (Nat.eqb (length ((x :: page) ++ [y])) page_size);
    cbn [app]; [eauto | apply IH].
Qed.

Lemma paginate_first {A} (page_size : nat) (x : A) (seq : list A) :
  exists p rest, _paginate page_size [] (x :: seq) = (x :: p) :: rest.
Proof.
  rewrite paginate_step.
  destruct (Nat.eqb (length ([] ++ [x])) page_size);
    cbn [app]; [eauto | apply paginate_begun].
Qed.

Lemma to_dict_records_nonempty df :
  (0 < index_len df)%nat ->
  exists r rest, to_dict_records df = r :: rest.
Proof.
  unfold to_dict_records. destruct (index_len df); [lia|].
  intros _. simpl. eauto.
Qed.

Variable server_message : sqlstate -> string.
Variable config_batch_size : Z.

Local Abbreviation run_statement := (run_statement server_message).
Local Abbreviation bulk_insert := (bulk_insert server_message config_batch_size).
Local Abbreviation upsert := (upsert server_message config_batch_size).

(** *** Statements without a conflict target *)

(** [ON CONFLICT ()] does not parse, whatever the table. *)
Lemma run_statement_empty_conflict tables tbl columns update_columns args :
  run_statement tables
    (insert_do_update tbl columns [] update_columns args)
  = Raised (ProgrammingError (server_message syntax_error)).
Proof. simpl. destruct columns; reflexivity. Qed.

(** C6.  [bulk_insert] of five rows with [batch_size=2] into an empty table:
    the server receives three calls of 2, 2 and 1 statements which together
    are the five inserts in order, and the five rows are stored; the value
    returned is [cursor.rowcount], the count of the last statement, 1.
    (psycopg2 documents that after [execute_batch] the [rowcount] does not
    contain a total.) *)
Theorem bulk_insert_returns_last_rowcount :
  map length
    (received (fst (bulk_insert Examples.five_rows "prices" (Some 2)
                      Examples.empty_prices)))
  = [2; 2; 1]%nat
  /\ concat
       (received (fst (bulk_insert Examples.five_rows "prices" (Some 2)
                         Examples.empty_prices)))
     = map (insert_do_nothing "prices" ["id"; "price"])
         (values_of ["id"; "price"] Examples.five_rows)
  /\ rows <$> (committed (fst (bulk_insert Examples.five_rows "prices"
                                 (Some 2) Examples.empty_prices))
               !! "prices")
     = Some Examples.five_rows
  /\ snd (bulk_insert Examples.five_rows "prices" (Some 2)
            Examples.empty_prices)
     = Returned 1.
Proof. vm_compute. repeat split. Qed.

Lemma elem_of_default_update_columns df conflict_columns c :
  c ∈ default_update_columns df conflict_columns
  <-> c ∈ columns df /\ c ∉ conflict_columns.
Proof.
  unfold default_update_columns. rewrite list_elem_of_filter. tauto.
Qed.

(** C7, as the code has it.  [upsert] does not check its conflict columns:
    with none, a dataset that has rows and a positive configured batch size,
    the statement is built with an empty conflict target and sent, and the
    call fails with the error of the database, a syntax error; when
    [update_columns] is not given, the columns updated are those of the
    dataset that are not conflict columns. *)
Theorem upsert_sends_statement_unchecked df table_name s :
  (0 < config_batch_size ->
   (0 < index_len df)%nat ->
   (exists args page rest,
       received (fst (upsert df table_name [] None s))
       = received s
         ++ [insert_do_update table_name (columns df) [] (columns df) args
             :: page]
       /\ _paginate (Z.to_nat config_batch_size) []
            (map (insert_do_update table_name (columns df) [] (columns df))
               (values_of (columns df) (to_dict_records df)))
          = (insert_do_update table_name (columns df) [] (columns df) args
             :: page) :: rest)
   /\ snd (upsert df table_name [] None s)
      = Raised (ProgrammingError (server_message syntax_error)))
  /\ (forall conflict_columns,
        upsert df table_name conflict_columns None s
        = upsert df table_name conflict_columns
            (Some (default_update_columns df conflict_columns)) s)
  /\ (forall conflict_columns c,
        c ∈ default_update_columns df conflict_columns
        <-> c ∈ columns df /\ c ∉ conflict_columns).
Proof.
  split; [|split; [reflexivity | intros; apply elem_of_default_update_columns]].
  intros Hsize Hrows.
  assert (default_update_columns df [] = columns df) as Hall.
  { unfold default_update_columns. induction (columns df) as [|c l IH];
      [reflexivity|].
    rewrite filter_cons_True by apply not_elem_of_nil. f_equal. exact IH. }
  unfold Warehouse.upsert, execute_batch. rewrite Hall.
  destruct (Z.leb config_batch_size 0) eqn:Hle; [apply Z.leb_le in Hle; lia|].
  destruct (to_dict_records_nonempty df Hrows) as (r & others & ->).
  cbn [values_of map].
  destruct (paginate_first (Z.to_nat config_batch_size)
              (insert_do_update table_name (columns df) [] (columns df)
                 (map (row_get r) (columns df)))
              (map (insert_do_update table_name (columns df) [] (columns df))
                 (map (fun r => map (row_get r) (columns df)) others)))
    as (page & rest & Hpages).
  unfold values_of. rewrite Hpages.
  pose proof (run_statement_empty_conflict (committed s) table_name (columns df)
                (columns df) (map (row_get r) (columns df))) as Hrun.
  unfold get_connection. cbn [execute_pages execute run_statements tables
                                rowcount calls].
  rewrite Hrun. cbn.
  split; [|reflexivity].
  exists (map (row_get r) (columns df)), page, rest. split; reflexivity.
Qed.

End WarehouseProperties.

(** * Worked examples *)

Import Examples.

(** [{price: [150, 500, 180]}] with the range [(0, 300)]: one violation. *)
Example one_price_out_of_range :
  error_details
    (accuracy_result prefix_match (AccuracyValidator false) quotes price_range)
  = [value_range_check "price" 0 300 1 [Some (VInt 500)]]
  /\ passed
       (accuracy_result prefix_match (AccuracyValidator false) quotes
          price_range)
     = false.
Proof. split; reflexivity. Qed.

(** [{id: [1, 2, 2, 3]}] with [unique_columns=['id']]: one duplicate. *)
Example one_duplicate_id :
  error_details
    (consistency_result parses_column parses_value (ConsistencyValidator false)
       ids unique_id)
  = [uniqueness_check "id" 1]
  /\ passed
       (consistency_result parses_column parses_value
          (ConsistencyValidator false) ids unique_id)
     = false.
Proof. split; reflexivity. Qed.

(** No rows against the default [min_row_count=1]. *)
Example no_rows_below_minimum :
  error_details
    (completeness_result (CompletenessValidator false) no_rows
       {| required_columns := []; null_threshold := None;
          min_row_count := None |})
  = [min_row_count_check 1 0].
Proof. vm_compute. reflexivity. Qed.

(** Seven nulls in a hundred rows against [null_threshold=7]: in binary64,
    [7 / 100 * 100] is [7.000000000000001], above the threshold. *)
Example seven_nulls_in_a_hundred_exceed_seven :
  null_percentage seven_in_a_hundred (nulls_then_values 7)
  = 0x1.c000000000001p+2%float
  /\ passed
       (completeness_result (CompletenessValidator false) seven_in_a_hundred
          {| required_columns := []; null_threshold := Some 7%float;
             min_row_count := None |})
     = false.
Proof. vm_compute. split; reflexivity. Qed.

(** An expected count of 10 with a tolerance of 0.7 against 3 rows: in
    binary64, [10 * (1 - 0.7)] is [3.0000000000000004], above 3. *)
Example three_rows_miss_the_band :
  min_expected 10 0x1.6666666666666p-1%float = 0x1.8000000000001p+1%float
  /\ outcome_map passed
       (expected_records_result (CompletenessValidator false) (rows_of 3) 10
          0x1.6666666666666p-1%float)
     = Returned false.
Proof. vm_compute. split; reflexivity. Qed.

(** A tolerance that is not a number: the comparison fails and [int(nan)]
    raises. *)
Example tolerance_that_is_not_a_number :
  snd (validate_expected_records (CompletenessValidator false) (rows_of 3) 10
         nan)
  = Raised (ValueError "cannot convert float NaN to integer").
Proof. vm_compute. reflexivity. Qed.

(** [{flag: [1, True]}] with [unique_columns=['flag']]: [True == 1], one
    duplicate. *)
Example true_duplicates_one :
  error_details
    (consistency_result parses_column parses_value (ConsistencyValidator false)
       flags (only_unique "flag"))
  = [uniqueness_check "flag" 1].
Proof. reflexivity. Qed.

(** A pattern that is not a regular expression: [validate] raises
    [re.error]. *)
Example bad_pattern_raises :
  snd (accuracy_validate prefix_match (AccuracyValidator false) quotes
         {| value_ranges := []; categorical_values := [];
            regex_patterns := [("price", "(")]; custom_rules := [] |})
  = Raised (re_error "missing ), unterminated subpattern at position 0").
Proof. reflexivity. Qed.

(** A row the table refuses: [bulk_insert] raises the error of the server,
    nothing is committed, and the call was received. *)
Example mistyped_row_is_refused :
  snd (bulk_insert messages 1000 MoreExamples.mistyped_rows "prices" None
         typed_prices)
  = Raised (DataError "invalid input syntax for type integer")
  /\ rows <$> (committed
                 (fst (bulk_insert messages 1000 MoreExamples.mistyped_rows
                         "prices" None typed_prices)) !! "prices")
     = Some []
  /\ map length
       (received
          (fst (bulk_insert messages 1000 MoreExamples.mistyped_rows "prices"
                  None typed_prices)))
     = [2%nat].
Proof. vm_compute. repeat split. Qed.

(** A batch size of zero or less: psycopg2 refuses the empty page, and
    nothing is sent. *)
Example negative_batch_size_sends_nothing :
  snd (upsert messages (-1) one_price "prices" ["id"] None empty_prices)
  = Raised empty_query
  /\ received
       (fst (upsert messages (-1) one_price "prices" ["id"] None empty_prices))
     = [].
Proof. vm_compute. split; reflexivity. Qed.

(** An instance of C2: the lease of [handle_a] ran out and [handle_b] holds
    the lock; [handle_a.release()] returns false and the entry of [handle_b]
    stays. *)
Lemma release_after_reacquisition :
  snd (release handle_a reacquired_by_b) = false
  /\ redis (fst (release handle_a reacquired_by_b)) = redis reacquired_by_b
  /\ get (fst (release handle_a reacquired_by_b)) (lock_name handle_a)
     = Some "token-b".
Proof.
  apply (proj2 (proj2 (proj2
           (release_compare_and_delete handle_a reacquired_by_b))) "token-b").
  - reflexivity.
  - discriminate.
Defined.



(** An instance of C4: the lock is taken and the scope is not entered; the
    lock is free and the scope body raises, after which [release] is sent. *)
Lemma context_on_held_and_free_lock :
  context alone punctual 10 handle_a true None raising_body held_by_b
  = Some (after_timeout,
          Raised (RuntimeError "Failed to acquire lock: etl:lock:prices"))
  /\ context alone punctual 10 handle_a true None raising_body empty_world
     = Some (fst (release handle_a (fst (raising_body after_acquire))),
             snd (raising_body after_acquire))
  /\ exists deleted rest,
      trace (fst (release handle_a (fst (raising_body after_acquire))))
      = trace (fst (raising_body after_acquire))
        ++ ev_eval (lock_name handle_a) (lock_id handle_a) deleted :: rest.
Proof.
  split.
  - apply (proj1 (context_raises_or_releases alone punctual 10 handle_a true
                    None raising_body held_by_b after_timeout false eq_refl)).
    reflexivity.
  - apply (proj2 (context_raises_or_releases alone punctual 10 handle_a true
                    None raising_body empty_world after_acquire true eq_refl)).
    reflexivity.
Defined.



(** An instance of C7 as amended: one row, no conflict columns. *)
Lemma upsert_without_conflict_columns :
  (exists args page rest,
      received (fst (upsert messages 10000 one_price "prices" [] None
                       empty_prices))
      = received empty_prices
        ++ [insert_do_update "prices" (columns one_price) []
              (columns one_price) args :: page]
      /\ _paginate (Z.to_nat 10000) []
           (map (insert_do_update "prices" (columns one_price) []
                   (columns one_price))
              (values_of (columns one_price) (to_dict_records one_price)))
         = (insert_do_update "prices" (columns one_price) []
              (columns one_price) args :: page) :: rest)
  /\ snd (upsert messages 10000 one_price "prices" [] None empty_prices)
     = Raised (ProgrammingError (messages syntax_error)).
Proof.
  apply (proj1 (upsert_sends_statement_unchecked messages 10000 one_price
                  "prices" empty_prices)).
  - reflexivity.
  - simpl. lia.
Defined.

(** C7 as stated fails: with no conflict columns the statement reaches the
    server, and the error is the one the database answers with, whatever its
    text. *)
Lemma upsert_empty_conflict_columns_reaches_server :
  (forall server_message,
      received (fst (upsert server_message 10000 one_price "prices" [] None
                       empty_prices))
      = [[insert_do_update "prices" ["id"; "price"] [] ["id"; "price"]
            [Some (VInt 1); Some (VInt 7)]]])
  /\ (forall server_message,
        snd (upsert server_message 10000 one_price "prices" [] None
               empty_prices)
        = Raised (ProgrammingError (server_message syntax_error)))
  /\ (forall server_message,
        Warehouse.log
          (fst (upsert server_message 10000 one_price "prices" [] None
                  empty_prices))
        = [("database_error", server_message syntax_error);
           ("upsert_failed", "prices")]).
Proof. repeat split; intros; vm_compute; reflexivity. Qed.

(** C8 as stated fails: no dataset and ruleset make the two counts exceed
    the total, which is their sum. *)
Lemma accuracy_counts_never_exceed_total :
  ~ (exists (re_compile : string -> outcome (string -> bool)) self df kwargs,
        total_records (accuracy_result re_compile self df kwargs)
        < passed_records (accuracy_result re_compile self df kwargs)
          + failed_records (accuracy_result re_compile self df kwargs)).
Proof.
  intros (re_compile & self & df & kwargs & H).
  rewrite accuracy_total_is_sum in H. lia.
Qed.

(** C8 as amended.  The two counts of an accuracy result add up to its total;
    the failed count adds the violations of each check, so that a single row
    flagged by two checks is counted twice and the counts exceed the number
    of rows. *)
Theorem accuracy_failed_counts_once_per_check :
  (forall (re_compile : string -> outcome (string -> bool)) self df kwargs,
      passed_records (accuracy_result re_compile self df kwargs)
      + failed_records (accuracy_result re_compile self df kwargs)
      = total_records (accuracy_result re_compile self df kwargs))
  /\ (forall (re_compile : string -> outcome (string -> bool)) self,
        len one_quote = 1
        /\ error_details
             (accuracy_result re_compile self one_quote range_and_category)
           = [value_range_check "price" 0 300 1 [Some (VInt 500)];
              categorical_values_check "price" [Some (VInt 100)] 1
                [Some (VInt 500)]]
        /\ failed_records
             (accuracy_result re_compile self one_quote range_and_category) = 2
        /\ total_records
             (accuracy_result re_compile self one_quote range_and_category) = 2).
Proof.
  split; [intros; apply accuracy_total_is_sum|].
  intros re_compile self. vm_compute. repeat split.
Qed.

Lemma never_store_alone tok : never_store tok alone.
Proof. intros t m H. exact H. Qed.

Lemma foreign_held_by_b : foreign "token-a" (redis held_by_b).
Proof. apply map_Forall_singleton. discriminate. Qed.

(** An instance of C9: [with handle_a:] while [handle_b] holds the lock. *)
Lemma with_self_on_held_lock :
  with_self alone punctual 10 handle_a returning_body held_by_b
  = Some (fst (release handle_a (fst (returning_body after_timeout))),
          snd (returning_body after_timeout))
  /\ (exists tok, get after_timeout (lock_name handle_a) = Some tok
                  /\ tok ≠ lock_id handle_a)
  /\ (exists k evs, trace after_timeout = trace held_by_b ++ evs
                    /\ attempts evs = replicate (S k) false)
  /\ exists deleted rest,
      trace (fst (release handle_a (fst (returning_body after_timeout))))
      = trace (fst (returning_body after_timeout))
        ++ ev_eval (lock_name handle_a) (lock_id handle_a) deleted :: rest.
Proof.
  apply (with_self_ignores_failed_acquire alone punctual 10 handle_a
           returning_body held_by_b after_timeout).
  - apply never_store_alone.
  - apply foreign_held_by_b.
  - reflexivity.
Defined.



(** * Further properties of the validators *)

Section CompletenessProperties.

Lemma difference_empty_iff (l1 l2 : list string) :
  (list_to_set l1 ∖ list_to_set l2 : gset string) = ∅
  <-> (forall c, c ∈ l1 -> c ∈ l2).
Proof.
  split.
  - intros Hempty c Hc. destruct (decide (c ∈ l2)) as [|Hnot]; [assumption|].
    assert (c ∈ (list_to_set l1 ∖ list_to_set l2 : gset string)) as Hin
      by set_solver.
    rewrite Hempty in Hin. exact (False_ind _ (not_elem_of_empty c Hin)).
  - intros Hsub. apply set_eq. intros c.
    rewrite elem_of_difference, !elem_of_list_to_set.
    split; [intros [H1 H2]; exfalso; auto | intros H; set_solver].
Qed.

Lemma null_violations_empty_iff df threshold :
  null_violations df threshold = []
  <-> Forall (within_null_threshold df threshold) (data df).
Proof.
  unfold null_violations, within_null_threshold.
  induction (data df) as [|c l IH]; simpl.
  - split; [constructor | reflexivity].
  - destruct (float_gt (null_percentage df (snd c)) threshold) eqn:Hgt; simpl.
    + split; [discriminate|]. intros H. inversion H as [|? ? Hc Hl].
      congruence.
    + rewrite IH. split.
      * intros H. constructor; assumption.
      * intros H. inversion H. assumption.
Qed.

(** The three tests of the completeness validator, and its three counts. *)
Lemma completeness_result_fields self df kwargs :
  passed (completeness_result self df kwargs)
  = negb (Z.ltb (len df) (default 1 (min_row_count kwargs)))
    && bool_decide
         ((list_to_set (required_columns kwargs) ∖ list_to_set (columns df)
           : gset string) = ∅)
    && bool_decide
         (null_violations df (default 0%float (null_threshold kwargs)) = [])
  /\ failed_records (completeness_result self df kwargs) = null_cells df
  /\ total_records (completeness_result self df kwargs)
     = (if Z.ltb 0 (Z.of_nat (length (columns df)))
        then len df * Z.of_nat (length (columns df)) else 0)
  /\ passed_records (completeness_result self df kwargs)
     = total_records (completeness_result self df kwargs)
       - failed_records (completeness_result self df kwargs).
Proof.
  unfold completeness_result.
  destruct (decide ((list_to_set (required_columns kwargs)
                     ∖ list_to_set (columns df) : gset string) = ∅))
    as [He|Hne].
  - rewrite (bool_decide_eq_false_2 (_ ≠ ∅)) by (intros H; exact (H He)).
    rewrite (bool_decide_eq_true_2 (_ = ∅)) by exact He.
    destruct (Z.ltb (len df) (default 1 (min_row_count kwargs)));
      destruct (null_violations df (default 0%float (null_threshold kwargs)));
      simpl; repeat split; reflexivity.
  - rewrite (bool_decide_eq_true_2 (_ ≠ ∅)) by exact Hne.
    rewrite (bool_decide_eq_false_2 (_ = ∅)) by exact Hne.
    destruct (Z.ltb (len df) (default 1 (min_row_count kwargs)));
      destruct (null_violations df (default 0%float (null_threshold kwargs)));
      simpl; repeat split; reflexivity.
Qed.

(** X1.  The completeness validator passes exactly when the frame has at
    least [min_row_count] rows (1 by default), every required column is a
    column of the frame, and of no column the null percentage, computed in
    binary64 as [null_count / len(df) * 100], compares greater than the
    threshold (0 by default). *)
Theorem completeness_passes_exactly_when self df kwargs :
  passed (completeness_result self df kwargs) = true
  <-> (default 1 (min_row_count kwargs) <= len df
       /\ (forall c, c ∈ required_columns kwargs -> c ∈ columns df)
       /\ Forall (fun c : string * Series =>
                    float_gt
                      (if Z.ltb 0 (len df)
                       then PrimFloat.mul
                              (PrimFloat.div (float_of_int (null_count (snd c)))
                                 (float_of_int (len df))) 100%float
                       else 0%float)
                      (default 0%float (null_threshold kwargs)) = false)
            (data df)).
Proof.
  destruct (completeness_result_fields self df kwargs) as (-> & _).
  rewrite !andb_true_iff, negb_true_iff, Z.ltb_ge, !bool_decide_eq_true.
  rewrite difference_empty_iff, null_violations_empty_iff. tauto.
Qed.

Lemma count_true_bounds (mask : list bool) :
  0 <= count_true mask <= Z.of_nat (length mask).
Proof.
  unfold count_true. pose proof (length_filter (fun b => b = true) mask). lia.
Qed.

Lemma null_count_bounds s :
  0 <= null_count s <= Z.of_nat (length (cells s)).
Proof.
  unfold null_count. pose proof (count_true_bounds (isnull s)) as H.
  unfold isnull in H at 3. rewrite length_map in H. exact H.
Qed.

Lemma null_cells_bounds n (l : list (string * Series)) :
  Forall (fun c => length (cells (snd c)) = n) l ->
  0 <= sum_Z (map (fun c : string * Series => null_count (snd c)) l)
    <= Z.of_nat n * Z.of_nat (length l).
Proof.
  induction 1 as [|c l Hc Hl IH]; simpl; [lia|].
  pose proof (null_count_bounds (snd c)) as Hb. rewrite Hc in Hb. lia.
Qed.

(** X2.  The counts of the completeness validator are counts of cells: the
    passed and the failed count add up to the total, and on a frame whose
    columns all have the length of the index none of them is negative. *)
Theorem completeness_counts_cells self df kwargs :
  well_formed df ->
  passed_records (completeness_result self df kwargs)
  + failed_records (completeness_result self df kwargs)
  = total_records (completeness_result self df kwargs)
  /\ total_records (completeness_result self df kwargs)
     = len df * Z.of_nat (length (columns df))
  /\ 0 <= failed_records (completeness_result self df kwargs)
       <= total_records (completeness_result self df kwargs)
  /\ 0 <= passed_records (completeness_result self df kwargs).
Proof.
  intros Hwf.
  destruct (completeness_result_fields self df kwargs)
    as (_ & Hfailed & Htotal & Hpassed).
  rewrite Hpassed, Hfailed, Htotal.
  pose proof (null_cells_bounds (index_len df) (data df) Hwf) as Hb.
  unfold null_cells, columns, len in *. rewrite length_map.
  destruct (Z.ltb_spec 0 (Z.of_nat (length (data df)))); lia.
Qed.

End CompletenessProperties.

Lemma well_formed_quotes : well_formed Examples.quotes.
Proof. repeat constructor. Qed.

(** An instance of X2 on a frame of three rows and two columns. *)
Lemma completeness_counts_of_quotes :
  passed_records
    (completeness_result (CompletenessValidator false) Examples.quotes
       {| required_columns := []; null_threshold := None;
          min_row_count := None |})
  + failed_records
      (completeness_result (CompletenessValidator false) Examples.quotes
         {| required_columns := []; null_threshold := None;
            min_row_count := None |})
  = total_records
      (completeness_result (CompletenessValidator false) Examples.quotes
         {| required_columns := []; null_threshold := None;
            min_row_count := None |}).
Proof.
  apply (completeness_counts_cells (CompletenessValidator false) Examples.quotes
           {| required_columns := []; null_threshold := None;
              min_row_count := None |} well_formed_quotes).
Defined.

Section ExpectedRecordsProperties.


End ExpectedRecordsProperties.


Section SchemaProperties.

Variable lower : string -> string.

Local Abbreviation column_conforms := (column_conforms lower).
Local Abbreviation column_property_step := (column_property_step lower).
Local Abbreviation schema_checks := (schema_checks lower).
Local Abbreviation schema_result := (schema_result lower).

Lemma no_null_iff s :
  existsb id (isnull s) = false <-> Forall is_Some (cells s).
Proof.
  unfold isnull. induction (cells s) as [|c l IH]; simpl.
  - split; [constructor | reflexivity].
  - destruct c as [v|]; simpl.
    + rewrite IH. split.
      * intros H. constructor; [eexists; reflexivity | exact H].
      * intros H. inversion H. assumption.
    + split; [discriminate|]. intros H. inversion H as [|? ? Hc Hl].
      destruct Hc as [v Hv]. discriminate.
Qed.

Lemma column_property_step_passed df st item :
  snd (column_property_step df st item) = true
  <-> snd st = true /\ column_conforms df item.
Proof.
  unfold Validators.column_property_step, Notions.column_conforms.
  destruct item as [column sd]. cbn [fst snd].
  destruct (col df column) as [s|]; [|tauto].
  rewrite <- no_null_iff.
  destruct (default true (sd_nullable sd)) eqn:Hnullable;
    destruct (existsb id (isnull s)) eqn:Hnull;
    destruct (sd_type sd) as [ty|] eqn:Hty; cbn [negb andb snd];
    try (destruct (String.eqb_spec ty "") as [Heq|Hne]; cbn [negb andb snd]);
    try (destruct (_is_type_compatible lower (dtype s) ty) eqn:Hcompat;
         cbn [negb andb snd]).
  all: split;
    [ intros H; repeat split; intros; simplify_eq; try congruence; auto
    | intros (H1 & H2 & H3);
      try (specialize (H2 eq_refl)); try (specialize (H3 _ eq_refl));
      try (specialize (H3 Hne)); congruence ].
Qed.

Lemma column_properties_passed df items :
  forall st,
    snd (fold_left (column_property_step df) items st) = true
    <-> snd st = true /\ Forall (column_conforms df) items.
Proof.
  induction items as [|item items IH]; intros st; simpl.
  - split; [intros H; split; [exact H | constructor] | tauto].
  - rewrite IH, column_property_step_passed. split.
    + intros ((H1 & H2) & H3). split; [exact H1 | constructor; assumption].
    + intros (H1 & H2). inversion H2. tauto.
Qed.

(** X4.  The schema validator passes exactly when every declared column is
    present, no undeclared column is present unless extra columns are allowed
    (the default), and every declared column that is present has no null
    unless it is nullable (the default) and has a dtype compatible with its
    declared type, if one is declared; its result counts all rows as passed
    or all as failed. *)
Theorem schema_passes_exactly_when self df kwargs :
  (passed (schema_result self df kwargs) = true
   <-> (forall c, c ∈ map fst (expected_schema kwargs) -> c ∈ columns df)
       /\ (default true (allow_extra_columns kwargs) = true
           \/ forall c, c ∈ columns df -> c ∈ map fst (expected_schema kwargs))
       /\ Forall (column_conforms df) (expected_schema kwargs))
  /\ total_records (schema_result self df kwargs) = len df
  /\ passed_records (schema_result self df kwargs)
     = (if passed (schema_result self df kwargs) then len df else 0)
  /\ failed_records (schema_result self df kwargs)
     = (if passed (schema_result self df kwargs) then 0 else len df).
Proof.
  assert (passed (schema_result self df kwargs) = snd (schema_checks df kwargs)
          /\ total_records (schema_result self df kwargs) = len df
          /\ passed_records (schema_result self df kwargs)
             = (if snd (schema_checks df kwargs) then len df else 0)
          /\ failed_records (schema_result self df kwargs)
             = (if snd (schema_checks df kwargs) then 0 else len df))
    as (Hp & Ht & Hpr & Hfr).
  { unfold Validators.schema_result. destruct (schema_checks df kwargs).
    repeat split. }
  rewrite Hp, Ht, Hpr, Hfr. split; [|repeat split].
  unfold Validators.schema_checks. rewrite column_properties_passed.
  rewrite <- (difference_empty_iff (map fst (expected_schema kwargs))).
  rewrite <- (difference_empty_iff (columns df)).
  destruct (decide ((list_to_set (map fst (expected_schema kwargs))
                     ∖ list_to_set (columns df) : gset string) = ∅))
    as [Hm|Hm].
  - rewrite (bool_decide_eq_false_2 (_ ∖ list_to_set (columns df) ≠ ∅))
      by (intros H; exact (H Hm)).
    destruct (default true (allow_extra_columns kwargs)); cbn [negb].
    + cbn [snd]. tauto.
    + destruct (decide ((list_to_set (columns df)
                         ∖ list_to_set (map fst (expected_schema kwargs))
                         : gset string) = ∅)) as [He|He].
      * rewrite (bool_decide_eq_false_2 (_ ≠ ∅)) by (intros H; exact (H He)).
        cbn [snd]. tauto.
      * rewrite (bool_decide_eq_true_2 (_ ≠ ∅)) by exact He.
        cbn [snd]. split; [intros [H _]; discriminate|].
        intros (_ & [H|H] & _); [discriminate | contradiction].
  - rewrite (bool_decide_eq_true_2 (_ ∖ list_to_set (columns df) ≠ ∅))
      by exact Hm.
    assert (forall st : schema_state,
               snd (if negb (default true (allow_extra_columns kwargs))
                    then if bool_decide
                              ((list_to_set (columns df)
                                ∖ list_to_set
                                    (map fst (expected_schema kwargs))
                                : gset string) ≠ ∅)
                         then (fst st ++ [extra_columns_check
                                 (elements
                                    (list_to_set (columns df)
                                     ∖ list_to_set
                                         (map fst (expected_schema kwargs))
                                     : gset string))], false)
                         else st
                    else st) = true -> snd st = true) as Hmono.
    { intros st. destruct (negb _); [|tauto].
      destruct (bool_decide _); [discriminate | tauto]. }
    split.
    + intros [H _]. apply Hmono in H. discriminate.
    + intros (H & _). contradiction.
Qed.

End SchemaProperties.

Section TypeCompatibility.

Variable lower : string -> string.

Lemma prefix_app (a s : string) : String.prefix a (a +:+ s) = true.
Proof.
  induction a as [|c a IH].
  - change ("" +:+ s) with s. destruct s; reflexivity.
  - change (String c a +:+ s) with (String c (a +:+ s)). simpl.
    destruct (ascii_dec c c); [exact IH | contradiction].
Qed.

Lemma contains_unfold (b a : string) :
  contains b a
  = if String.prefix a b then true
    else match b with
         | EmptyString => false
         | String _ r => contains r a
         end.
Proof. destruct b; reflexivity. Qed.

(** A string contains each of its substrings. *)
Lemma contains_infix (pre a suf : string) :
  contains (pre +:+ a +:+ suf) a = true.
Proof.
  induction pre as [|c pre IH]; rewrite contains_unfold.
  - change ("" +:+ a +:+ suf) with (a +:+ suf). rewrite prefix_app.
    reflexivity.
  - change (String c pre +:+ a +:+ suf) with (String c (pre +:+ a +:+ suf)).
    destruct (String.prefix a _); [reflexivity|]. exact IH.
Qed.

(** X5.  Type compatibility of the schema validator goes by family and by
    substring: a declared type whose [lower()] names a family of the table
    accepts every dtype whose name contains one of the family's names
    (so [int] accepts [uint64], and [datetime] accepts a timezone-aware
    [datetime64[ns, UTC]]); any other declared type accepts exactly the dtypes
    whose [lower()] equals its own. *)
Theorem type_families_accept_by_substring actual expected :
  (forall family actuals listed pre suf,
      (family, actuals) ∈ type_mappings ->
      listed ∈ actuals ->
      lower expected = family ->
      actual = pre +:+ listed +:+ suf ->
      _is_type_compatible lower actual expected = true)
  /\ ((forall family actuals,
          (family, actuals) ∈ type_mappings -> lower expected ≠ family) ->
      _is_type_compatible lower actual expected
      = String.eqb (lower actual) (lower expected)).
Proof.
  split.
  - intros family actuals listed pre suf Hfam Hlisted Hlower ->.
    unfold _is_type_compatible. rewrite Hlower.
    unfold type_mappings in Hfam.
    apply list_elem_of_In in Hfam. apply list_elem_of_In in Hlisted.
    simpl in Hfam.
    repeat (destruct Hfam as [Hfam|Hfam];
      [injection Hfam as <- <-; simpl in Hlisted; simpl find; cbv iota beta;
       repeat (destruct Hlisted as [<-|Hlisted];
               [cbn [existsb]; rewrite contains_infix, ?orb_true_r;
                reflexivity|]);
       contradiction|]).
    contradiction.
  - intros Hnone. unfold _is_type_compatible, type_mappings. cbn [find fst].
    repeat match goal with
           | |- context [String.eqb (lower expected) ?k] =>
             destruct (String.eqb_spec (lower expected) k) as [He|_];
             [exfalso; eapply Hnone; [|exact He];
              apply list_elem_of_In; simpl; auto 10|]
           end.
    reflexivity.
Qed.

End TypeCompatibility.

(** An instance of X5 on ASCII names: [uint64] against the declared type
    [Int], and [Decimal] against the declared type [decimal]. *)
Lemma unsigned_is_an_int_and_unknown_types_compare :
  _is_type_compatible Examples.ascii_lower "uint64" "Int" = true
  /\ _is_type_compatible Examples.ascii_lower "Decimal" "decimal"
     = String.eqb (Examples.ascii_lower "Decimal")
         (Examples.ascii_lower "decimal").
Proof.
  split.
  - apply (proj1 (type_families_accept_by_substring Examples.ascii_lower
                    "uint64" "Int")
             "int" ["int64"; "int32"; "int16"; "int8"] "int64" "u" "").
    + apply list_elem_of_In. simpl. auto.
    + apply list_elem_of_In. simpl. auto.
    + reflexivity.
    + reflexivity.
  - apply (proj2 (type_families_accept_by_substring Examples.ascii_lower
                    "Decimal" "decimal")).
    intros family actuals Hin Heq. unfold type_mappings in Hin.
    apply list_elem_of_In in Hin. simpl in Hin.
    repeat (destruct Hin as [Hin|Hin]; [injection Hin as <- _; discriminate|]).
    exact Hin.
Defined.

Section RuleProperties.

Variable re_compile : string -> outcome (string -> bool).
Variable to_datetime_column : string -> list cell -> bool.
Variable to_datetime_value : string -> cell -> bool.




(** A comparison with a number raises exactly on a column that holds text,
    and then at its first comparison, [<]. *)
Lemma series_lt_spec s n :
  if has_text s
  then series_lt s n
       = Raised
           (TypeError "'<' not supported between instances of 'str' and 'int'")
  else exists mask, series_lt s n = Returned mask.
Proof.
  unfold has_text, series_lt. induction (cells s) as [|c l IH]; simpl.
  - eexists. reflexivity.
  - destruct c as [[z|x|b]|]; simpl; try reflexivity.
    all: destruct (existsb is_text l); [rewrite IH; reflexivity|].
    all: destruct IH as [mask ->]; eexists; reflexivity.
Qed.

Lemma series_gt_returns s n :
  has_text s = false -> exists mask, series_gt s n = Returned mask.
Proof.
  unfold has_text, series_gt. induction (cells s) as [|c l IH]; simpl.
  - intros _. eexists. reflexivity.
  - destruct c as [[z|x|b]|]; simpl; try discriminate.
    all: intros H; destruct (IH H) as [mask ->]; eexists; reflexivity.
Qed.

Lemma out_of_range_spec s lo hi :
  if has_text s
  then out_of_range s lo hi
       = Raised
           (TypeError "'<' not supported between instances of 'str' and 'int'")
  else exists mask, out_of_range s lo hi = Returned mask.
Proof.
  unfold out_of_range. pose proof (series_lt_spec s lo) as Hlt.
  destruct (has_text s) eqn:Htext; [rewrite Hlt; reflexivity|].
  destruct Hlt as [below ->].
  destruct (series_gt_returns s hi Htext) as [above ->].
  eexists. reflexivity.
Qed.


(** *** What the failed count of the accuracy validator adds up *)

Lemma sum_Z_snoc (l : list Z) (x : Z) : sum_Z (l ++ [x]) = sum_Z l + x.
Proof. induction l as [|y l IH]; simpl; [lia | rewrite IH; lia]. Qed.

Lemma failed_is_reported_detail t d :
  failed_is_reported t -> 0 < violations_of d ->
  failed_is_reported (append_detail d (add_failed (violations_of d) t)).
Proof.
  intros [Hsum Hpos] Hd.
  split; cbn [t_failed_count t_error_details append_detail add_failed].
  - rewrite List.map_app. cbn [map]. rewrite sum_Z_snoc, Hsum. reflexivity.
  - apply Forall_app. split; [exact Hpos | repeat constructor; exact Hd].
Qed.

Lemma failed_is_reported_passed t n :
  failed_is_reported t -> failed_is_reported (add_passed n t).
Proof. intros H. exact H. Qed.

Lemma value_range_step_reported df t item :
  failed_is_reported t ->
  failed_is_reported (fst (value_range_step df t item)).
Proof.
  intros H. unfold value_range_step. destruct item as [c [lo hi]].
  destruct (col df c) as [s|]; [|exact H].
  destruct (out_of_range s lo hi) as [mask|e]; [|exact H].
  cbn [fst]. apply failed_is_reported_passed.
  destruct (Z.ltb_spec 0 (count_true mask)); [|exact H].
  apply (failed_is_reported_detail t (value_range_check c lo hi _ _) H).
  assumption.
Qed.

Lemma categorical_step_reported df t item :
  failed_is_reported t ->
  failed_is_reported (fst (categorical_step df t item)).
Proof.
  intros H. unfold categorical_step. destruct item as [c vs].
  destruct (col df c) as [s|]; [|exact H].
  cbn [fst]. apply failed_is_reported_passed.
  destruct (Z.ltb_spec 0 (count_true (invert (isin s vs)))); [|exact H].
  apply (failed_is_reported_detail t (categorical_values_check c _ _ _) H).
  assumption.
Qed.

Lemma regex_step_reported df t item :
  failed_is_reported t ->
  failed_is_reported (fst (regex_step re_compile df t item)).
Proof.
  intros H. unfold regex_step. destruct item as [c p].
  destruct (col df c) as [s|]; [|exact H].
  destruct (re_compile p) as [re_match|e]; [|exact H].
  cbn [fst]. apply failed_is_reported_passed.
  destruct (Z.ltb_spec 0
              (count_true
                 (invert (map (fun c0 => re_match (str_of_cell (dtype s) c0))
                            (cells s))))); [|exact H].
  apply (failed_is_reported_detail t (regex_pattern_check c p _ _) H).
  assumption.
Qed.

Lemma custom_rule_step_reported df t item :
  is_Some (rule_name (snd item)) ->
  failed_is_reported t ->
  failed_is_reported (fst (custom_rule_step df t item)).
Proof.
  intros [n Hname] H. unfold custom_rule_step, custom_rule_try.
  destruct item as [c r]. cbn [snd] in Hname.
  destruct (col df c) as [s|]; [|exact H].
  destruct (rule_func r s) as [mask|e];
    [|destruct (is_exception e); exact H].
  destruct (negb (Nat.eqb (length mask) (index_len df))); [exact H|].
  destruct (Z.ltb_spec 0 (count_true (invert mask))); [|exact H].
  rewrite Hname. cbn [fst].
  apply failed_is_reported_passed.
  destruct H as [Hsum Hpos].
  split; cbn [t_failed_count t_error_details append_detail add_failed].
  - rewrite List.map_app. cbn [map]. rewrite sum_Z_snoc, Hsum. reflexivity.
  - apply Forall_app. split; [exact Hpos | repeat constructor; assumption].
Qed.

(** X7.  When every custom rule has a [__name__], the failed count of an
    accuracy result is the sum of the violation counts its error entries
    report, and every entry reports at least one violation. *)
Theorem accuracy_failed_is_sum_of_violations self df kwargs :
  Forall (fun item : string * rule => is_Some (rule_name (snd item)))
    (custom_rules kwargs) ->
  failed_records (accuracy_result re_compile self df kwargs)
  = sum_Z (map violations_of
             (error_details (accuracy_result re_compile self df kwargs)))
  /\ Forall (fun d => 0 < violations_of d)
       (error_details (accuracy_result re_compile self df kwargs)).
Proof.
  intros Hnamed.
  change (failed_is_reported (accuracy_checks re_compile df kwargs)).
  unfold accuracy_checks, accuracy_run.
  apply and_then_invariant_in.
  { intros t item Hin. apply custom_rule_step_reported.
    rewrite Forall_forall in Hnamed. apply Hnamed, Hin. }
  apply and_then_invariant_in; [intros; apply regex_step_reported; assumption|].
  apply and_then_invariant_in;
    [intros; apply categorical_step_reported; assumption|].
  apply for_each_invariant_in;
    [intros; apply value_range_step_reported; assumption|].
  split; [reflexivity | constructor].
Qed.

(** X8.  A custom rule without a [__name__] (a callable that is not a
    function) that finds violations: the failed count is raised by their
    number, the lookup of the name then fails inside the [try], and the
    result carries no error entry for the rule, so that with this rule alone
    the result passes with a non-zero failed count and no passed count, and
    [validate] returns it, in strict mode too. *)
Theorem nameless_rule_fails_without_entry self df column r s mask :
  col df column = Some s ->
  rule_func r s = Returned mask ->
  length mask = index_len df ->
  rule_name r = None ->
  0 < count_true (invert mask) ->
  counts_and_details
    (accuracy_result re_compile self df (only_rule column r))
  = (true, 0, count_true (invert mask), count_true (invert mask), [])
  /\ accuracy_validate re_compile self df (only_rule column r)
     = ([custom_rule_error column "object has no attribute '__name__'";
         validation_passed (name self) "accuracy"
           (success_rate
              (accuracy_result re_compile self df (only_rule column r)))
           0 (count_true (invert mask))],
        Returned (accuracy_result re_compile self df (only_rule column r))).
Proof.
  intros Hcol Hmask Hlen Hname Hviol.
  assert (accuracy_run re_compile df (only_rule column r)
          = ({| t_error_details := []; t_passed_count := 0;
                t_failed_count := count_true (invert mask);
                t_log := [custom_rule_error column
                            "object has no attribute '__name__'"] |}, None))
    as Hrun.
  { unfold accuracy_run, only_rule. cbn [value_ranges categorical_values
      regex_patterns custom_rules for_each and_then].
    unfold custom_rule_step, custom_rule_try.
    rewrite Hcol, Hmask, Hlen, Nat.eqb_refl. cbn [negb].
    destruct (Z.ltb_spec 0 (count_true (invert mask))); [|lia].
    rewrite Hname. reflexivity. }
  assert (counts_and_details
            (accuracy_result re_compile self df (only_rule column r))
          = (true, 0, count_true (invert mask), count_true (invert mask), []))
    as Hcounts.
  { unfold counts_and_details, accuracy_result, accuracy_checks.
    cbn [passed passed_records failed_records total_records error_details].
    rewrite Hrun. reflexivity. }
  split; [exact Hcounts|].
  unfold accuracy_validate, accuracy_error, accuracy_checks.
  rewrite Hrun. cbn [fst snd t_log]. rewrite report_outcome. unfold log_result.
  rewrite (f_equal (fun x => fst (fst (fst (fst x)))) Hcounts
           : passed (accuracy_result re_compile self df (only_rule column r))
             = true).
  rewrite (f_equal (fun x => snd (fst (fst (fst x)))) Hcounts
           : passed_records
               (accuracy_result re_compile self df (only_rule column r)) = 0).
  rewrite (f_equal (fun x => snd (fst (fst x))) Hcounts
           : failed_records
               (accuracy_result re_compile self df (only_rule column r))
             = count_true (invert mask)).
  rewrite andb_false_r. reflexivity.
Qed.

(** *** Uniqueness *)

Lemma count_true_cons (b : bool) (mask : list bool) :
  count_true (b :: mask) = (if b then 1 else 0) + count_true mask.
Proof.
  unfold count_true. destruct b.
  - rewrite filter_cons_True by reflexivity. simpl length. lia.
  - rewrite filter_cons_False by discriminate. lia.
Qed.

Lemma no_duplicate_iff (l : list cell) :
  forall seen,
    count_true (duplicated_from seen l) = 0
    <-> NoDup (map py_key l) /\ (forall x, x ∈ map py_key l -> x ∉ seen).
Proof.
  induction l as [|c l IH]; intros seen; simpl.
  - split; [intros _; split; [constructor | intros x Hx; inversion Hx]
           | reflexivity].
  - rewrite count_true_cons.
    pose proof (count_true_bounds (duplicated_from (py_key c :: seen) l))
      as Hb.
    case_bool_decide as Hc.
    + split; [lia|]. intros [_ H]. exfalso.
      apply (H (py_key c)); [left | exact Hc].
    + rewrite Z.add_0_l, IH, NoDup_cons. split.
      * intros (Hnd & Hout). repeat split; [|exact Hnd|].
        -- intros Hin. apply (Hout (py_key c) Hin). left.
        -- intros x Hx. apply elem_of_cons in Hx as [->|Hx]; [exact Hc|].
           intros Hs. apply (Hout x Hx). right. exact Hs.
      * intros ((Hnotin & Hnd) & Hout). split; [exact Hnd|].
        intros x Hx Hs. apply elem_of_cons in Hs as [->|Hs];
          [contradiction|]. apply (Hout x); [right; exact Hx | exact Hs].
Qed.

(** X9.  The uniqueness check of the consistency validator on a column of
    the frame passes exactly when the values of the column are pairwise
    distinct as Python compares them, nulls included ([True] is equal to 1
    and [False] to 0); otherwise its one error entry reports the number of
    values that repeat an earlier one. *)
Theorem uniqueness_passes_iff_distinct self df column s :
  col df column = Some s ->
  (passed (consistency_result to_datetime_column to_datetime_value self df
             (only_unique column)) = true
   <-> NoDup (map py_key (cells s)))
  /\ error_details
       (consistency_result to_datetime_column to_datetime_value self df
          (only_unique column))
     = (if Z.ltb 0 (count_true (duplicated s))
        then [uniqueness_check column (count_true (duplicated s))] else [])
  /\ failed_records
       (consistency_result to_datetime_column to_datetime_value self df
          (only_unique column))
     = count_true (duplicated s).
Proof.
  intros Hcol.
  assert (consistency_checks to_datetime_column to_datetime_value df
            (only_unique column)
          = fst (uniqueness_step df tally0 column)) as Hchecks.
  { unfold consistency_checks, consistency_run, only_unique.
    cbn [data_types unique_columns date_formats cross_field_rules for_each
         and_then].
    destruct (uniqueness_step df tally0 column) as [t [e|]]; reflexivity. }
  unfold consistency_result.
  cbn [passed error_details failed_records]. rewrite Hchecks.
  unfold uniqueness_step. rewrite Hcol.
  pose proof (count_true_bounds (duplicated s)) as Hb.
  pose proof (no_duplicate_iff (cells s) []) as Hnd.
  fold (duplicated s) in Hnd.
  destruct (Z.ltb_spec 0 (count_true (duplicated s))) as [Hpos|Hzero].
  - cbn. repeat split; try discriminate.
    intros H. assert (count_true (duplicated s) = 0); [|lia].
    apply Hnd. split; [exact H|]. intros x _ Hx. inversion Hx.
  - cbn. repeat split; try lia.
    intros _. apply Hnd. lia.
Qed.

End RuleProperties.


(** An instance of X7: both custom rules are named functions. *)
Lemma named_rules_add_up :
  failed_records
    (accuracy_result Examples.prefix_match (AccuracyValidator false)
       Examples.quotes Examples.with_broken_rule)
  = sum_Z (map violations_of
             (error_details
                (accuracy_result Examples.prefix_match
                   (AccuracyValidator false) Examples.quotes
                   Examples.with_broken_rule)))
  /\ Forall (fun d => 0 < violations_of d)
       (error_details
          (accuracy_result Examples.prefix_match (AccuracyValidator false)
             Examples.quotes Examples.with_broken_rule)).
Proof.
  apply (accuracy_failed_is_sum_of_violations Examples.prefix_match
           (AccuracyValidator false) Examples.quotes
           Examples.with_broken_rule).
  repeat constructor; eexists; reflexivity.
Defined.

(** An instance of X8: a nameless rule that rejects two of three prices. *)
Lemma nameless_rule_on_quotes :
  counts_and_details
    (accuracy_result Examples.prefix_match (AccuracyValidator true)
       Examples.quotes (only_rule "price" MoreExamples.nameless_rule))
  = (true, 0, count_true (invert [false; true; false]),
     count_true (invert [false; true; false]), [])
  /\ accuracy_validate Examples.prefix_match (AccuracyValidator true)
       Examples.quotes (only_rule "price" MoreExamples.nameless_rule)
     = ([custom_rule_error "price" "object has no attribute '__name__'";
         validation_passed (name (AccuracyValidator true)) "accuracy"
           (success_rate
              (accuracy_result Examples.prefix_match (AccuracyValidator true)
                 Examples.quotes
                 (only_rule "price" MoreExamples.nameless_rule)))
           0 (count_true (invert [false; true; false]))],
        Returned
          (accuracy_result Examples.prefix_match (AccuracyValidator true)
             Examples.quotes (only_rule "price" MoreExamples.nameless_rule))).
Proof.
  apply (nameless_rule_fails_without_entry Examples.prefix_match
           (AccuracyValidator true) Examples.quotes "price"
           MoreExamples.nameless_rule
           (Examples.int_series [150; 500; 180]) [false; true; false]);
    reflexivity.
Defined.

(** An instance of X9 on [{flag: [1, True]}]: [True] repeats 1. *)
Lemma uniqueness_of_flags :
  (passed
     (consistency_result Examples.parses_column Examples.parses_value
        (ConsistencyValidator false) Examples.flags (only_unique "flag"))
   = true
   <-> NoDup (map py_key [Some (VInt 1); Some (VBool true)]))
  /\ error_details
       (consistency_result Examples.parses_column Examples.parses_value
          (ConsistencyValidator false) Examples.flags (only_unique "flag"))
     = (if Z.ltb 0
             (count_true
                (duplicated
                   {| dtype := "object";
                      cells := [Some (VInt 1); Some (VBool true)] |}))
        then [uniqueness_check "flag"
                (count_true
                   (duplicated
                      {| dtype := "object";
                         cells := [Some (VInt 1); Some (VBool true)] |}))]
        else [])
  /\ failed_records
       (consistency_result Examples.parses_column Examples.parses_value
          (ConsistencyValidator false) Examples.flags (only_unique "flag"))
     = count_true
         (duplicated
            {| dtype := "object";
               cells := [Some (VInt 1); Some (VBool true)] |}).
Proof.
  apply (uniqueness_passes_iff_distinct Examples.parses_column
           Examples.parses_value (ConsistencyValidator false) Examples.flags
           "flag"
           {| dtype := "object";
              cells := [Some (VInt 1); Some (VBool true)] |}).
  reflexivity.
Defined.

Section AccuracyBounds.

Variable re_compile : string -> outcome (string -> bool).

Lemma col_length df c s :
  well_formed df -> col df c = Some s -> length (cells s) = index_len df.
Proof.
  unfold well_formed, col. induction (data df) as [|[k a] l IH]; simpl;
    intros Hwf Hcol; [discriminate|].
  inversion Hwf as [|? ? Ha Hl]. destruct (decide (k = c)).
  - injection Hcol as <-. exact Ha.
  - apply IH; assumption.
Qed.

Lemma length_invert (mask : list bool) : length (invert mask) = length mask.
Proof. unfold invert. apply length_map. Qed.

Lemma elementwise_length f l mask :
  elementwise f l = Returned mask -> length mask = length l.
Proof.
  revert mask. induction l as [|c l IH]; intros mask; simpl.
  - intros [= <-]. reflexivity.
  - destruct (f c) as [b|e]; [|discriminate].
    destruct (elementwise f l) as [m|e]; [|discriminate].
    intros [= <-]. simpl. f_equal. apply IH. reflexivity.
Qed.

Lemma mask_or_length m1 m2 :
  length m1 = length m2 -> length (mask_or m1 m2) = length m1.
Proof.
  revert m2. induction m1 as [|b1 m1 IH]; intros [|b2 m2]; simpl;
    try discriminate; [reflexivity|].
  intros [= H]. f_equal. apply IH, H.
Qed.

Lemma out_of_range_length s lo hi mask :
  out_of_range s lo hi = Returned mask -> length mask = length (cells s).
Proof.
  unfold out_of_range, series_lt, series_gt.
  destruct (elementwise _ (cells s)) as [below|e] eqn:Hlt; [|discriminate].
  destruct (elementwise (fun c => cell_gt c hi) (cells s)) as [above|e]
    eqn:Hgt; [|discriminate].
  intros [= <-]. apply elementwise_length in Hlt, Hgt.
  rewrite mask_or_length; congruence.
Qed.

Lemma counts_within_next df n t :
  counts_within df n t -> counts_within df (S n) t.
Proof. unfold counts_within, len. intros (? & ? & ?). repeat split; nia. Qed.

(** A check over a mask with one entry per row adds its violations to the
    failed count and the other rows to the passed count. *)
Lemma counts_within_check df n t mask d :
  length mask = index_len df ->
  counts_within df n t ->
  counts_within df (S n)
    (add_passed (len df - count_true mask)
       (if Z.ltb 0 (count_true mask)
        then append_detail d (add_failed (count_true mask) t) else t)).
Proof.
  intros Hlen (Hp & Hf & Hsum). pose proof (count_true_bounds mask) as Hb.
  rewrite Hlen in Hb. unfold counts_within, len in *.
  destruct (Z.ltb_spec 0 (count_true mask)); simpl; repeat split; nia.
Qed.

Lemma value_range_step_within df n t item :
  well_formed df -> counts_within df n t ->
  counts_within df (S n) (fst (value_range_step df t item)).
Proof.
  intros Hwf H. unfold value_range_step. destruct item as [c [lo hi]].
  destruct (col df c) as [s|] eqn:Hcol; [|apply counts_within_next, H].
  destruct (out_of_range s lo hi) as [mask|e] eqn:Hmask;
    [|apply counts_within_next, H].
  cbn [fst]. apply counts_within_check; [|exact H].
  rewrite (out_of_range_length _ _ _ _ Hmask).
  apply (col_length df c s Hwf Hcol).
Qed.

Lemma categorical_step_within df n t item :
  well_formed df -> counts_within df n t ->
  counts_within df (S n) (fst (categorical_step df t item)).
Proof.
  intros Hwf H. unfold categorical_step. destruct item as [c vs].
  destruct (col df c) as [s|] eqn:Hcol; [|apply counts_within_next, H].
  cbn [fst]. apply counts_within_check; [|exact H].
  unfold isin. rewrite length_invert, length_map.
  apply (col_length df c s Hwf Hcol).
Qed.

Lemma regex_step_within df n t item :
  well_formed df -> counts_within df n t ->
  counts_within df (S n) (fst (regex_step re_compile df t item)).
Proof.
  intros Hwf H. unfold regex_step. destruct item as [c p].
  destruct (col df c) as [s|] eqn:Hcol; [|apply counts_within_next, H].
  destruct (re_compile p) as [re_match|e]; [|apply counts_within_next, H].
  cbn [fst]. apply counts_within_check; [|exact H].
  rewrite length_invert, length_map. apply (col_length df c s Hwf Hcol).
Qed.

Lemma custom_rule_step_within df n t item :
  counts_within df n t ->
  counts_within df (S n) (fst (custom_rule_step df t item)).
Proof.
  intros H. unfold custom_rule_step, custom_rule_try. destruct item as [c r].
  destruct (col df c) as [s|]; [|apply counts_within_next, H].
  destruct (rule_func r s) as [mask|e];
    [|destruct (is_exception e); apply counts_within_next, H].
  destruct (Nat.eqb_spec (length mask) (index_len df)) as [Hlen|Hlen];
    cbn [negb]; [|apply counts_within_next, H].
  pose proof (count_true_bounds (invert mask)) as Hb.
  rewrite length_invert, Hlen in Hb.
  destruct H as (Hp & Hf & Hsum). unfold counts_within, len in *.
  destruct (Z.ltb_spec 0 (count_true (invert mask)));
    [destruct (rule_name r)|]; simpl; repeat split; nia.
Qed.

Lemma counts_within_more df n m t :
  counts_within df n t -> counts_within df (n + m) t.
Proof.
  intros H. induction m as [|m IH]; [rewrite Nat.add_0_r; exact H|].
  rewrite Nat.add_succ_r. apply counts_within_next, IH.
Qed.

Lemma for_each_counting {X} df (step : tally -> X -> checked) (l : list X) :
  (forall n t x, counts_within df n t ->
                 counts_within df (S n) (fst (step t x))) ->
  forall n t,
    counts_within df n t ->
    counts_within df (n + length l) (fst (for_each step l t)).
Proof.
  intros Hstep. induction l as [|x l IH]; intros n t H; simpl.
  - rewrite Nat.add_0_r. exact H.
  - pose proof (Hstep n t x H) as Hx.
    destruct (step t x) as [t1 [e|]]; cbn [fst] in *.
    + replace (n + S (length l))%nat with (S n + length l)%nat by lia.
      apply counts_within_more, Hx.
    + rewrite <- Nat.add_succ_comm. apply IH, Hx.
Qed.

Lemma and_then_counting {X} df (c : checked) (step : tally -> X -> checked)
    (l : list X) n :
  (forall n t x, counts_within df n t ->
                 counts_within df (S n) (fst (step t x))) ->
  counts_within df n (fst c) ->
  counts_within df (n + length l) (fst (and_then c step l)).
Proof.
  intros Hstep H. destruct c as [t [e|]]; cbn [and_then fst] in *.
  - apply counts_within_more, H.
  - apply for_each_counting; assumption.
Qed.

(** X23.  On a frame whose columns all have the length of the index, the
    counts of the accuracy validator are not negative, and their total is at
    most the number of rows times the number of rules, the
    [checks_performed] entry of the metadata. *)
Theorem accuracy_counts_are_bounded self df kwargs :
  well_formed df ->
  0 <= passed_records (accuracy_result re_compile self df kwargs)
  /\ 0 <= failed_records (accuracy_result re_compile self df kwargs)
  /\ total_records (accuracy_result re_compile self df kwargs)
     <= len df
        * (Z.of_nat (length (value_ranges kwargs))
           + Z.of_nat (length (categorical_values kwargs))
           + Z.of_nat (length (regex_patterns kwargs))
           + Z.of_nat (length (custom_rules kwargs)))
  /\ metadata (accuracy_result re_compile self df kwargs)
     = [("checks_performed",
         MInt (Z.of_nat (length (value_ranges kwargs))
               + Z.of_nat (length (categorical_values kwargs))
               + Z.of_nat (length (regex_patterns kwargs))
               + Z.of_nat (length (custom_rules kwargs))))].
Proof.
  intros Hwf.
  assert (counts_within df
            (0 + length (value_ranges kwargs)
             + length (categorical_values kwargs)
             + length (regex_patterns kwargs) + length (custom_rules kwargs))
            (accuracy_checks re_compile df kwargs)) as (Hp & Hf & Hsum).
  { unfold accuracy_checks, accuracy_run.
    apply and_then_counting;
      [intros; apply custom_rule_step_within; assumption|].
    apply and_then_counting;
      [intros; apply regex_step_within; assumption|].
    apply and_then_counting;
      [intros; apply categorical_step_within; assumption|].
    apply for_each_counting;
      [intros; apply value_range_step_within; assumption|].
    unfold counts_within, len. simpl. lia. }
  unfold accuracy_result.
  cbn [passed_records failed_records total_records metadata].
  repeat split; try assumption.
  rewrite !Nat2Z.inj_add in Hsum. simpl in Hsum. lia.
Qed.

End AccuracyBounds.

(** An instance of X23 on three rows and three rules. *)
Lemma accuracy_counts_of_quotes :
  0 <= passed_records
         (accuracy_result Examples.prefix_match (AccuracyValidator false)
            Examples.quotes Examples.with_broken_rule)
  /\ 0 <= failed_records
            (accuracy_result Examples.prefix_match (AccuracyValidator false)
               Examples.quotes Examples.with_broken_rule)
  /\ total_records
       (accuracy_result Examples.prefix_match (AccuracyValidator false)
          Examples.quotes Examples.with_broken_rule)
     <= len Examples.quotes
        * (Z.of_nat (length (value_ranges Examples.with_broken_rule))
           + Z.of_nat (length (categorical_values Examples.with_broken_rule))
           + Z.of_nat (length (regex_patterns Examples.with_broken_rule))
           + Z.of_nat (length (custom_rules Examples.with_broken_rule)))
  /\ metadata
       (accuracy_result Examples.prefix_match (AccuracyValidator false)
          Examples.quotes Examples.with_broken_rule)
     = [("checks_performed",
         MInt (Z.of_nat (length (value_ranges Examples.with_broken_rule))
               + Z.of_nat
                   (length (categorical_values Examples.with_broken_rule))
               + Z.of_nat (length (regex_patterns Examples.with_broken_rule))
               + Z.of_nat (length (custom_rules Examples.with_broken_rule))))].
Proof.
  apply (accuracy_counts_are_bounded Examples.prefix_match
           (AccuracyValidator false) Examples.quotes
           Examples.with_broken_rule).
  repeat constructor.
Defined.

(** * Further properties of the lock *)

Import LockNotions.

Section MoreLockProperties.

Variable others : Z -> gmap string entry -> gmap string entry.
Variable lag : Z -> Z.

Local Abbreviation acquire := (acquire others lag).

Lemma acquire_free self blocking timeout_arg fuel w :
  0 < timeout self ->
  get w (lock_name self) = None ->
  acquire (S fuel) self blocking timeout_arg w
  = Some (holding self w, Returned true).
Proof.
  intros Hlease Hfree. unfold Lock.acquire. cbn [acquire_loop]. unfold set_nx.
  destruct (Z.leb_spec (timeout self) 0); [lia|].
  rewrite Hfree. unfold holding, record. cbn [redis clock trace].
  rewrite <- app_assoc. reflexivity.
Qed.

Lemma get_holding self w t :
  get (at_time t (holding self w)) (lock_name self)
  = if Z.ltb t (clock w + timeout self) then Some (lock_id self) else None.
Proof.
  unfold get, at_time, holding. cbn [redis clock].
  rewrite lookup_insert_eq. reflexivity.
Qed.

(** A handle whose lease is not positive: every call raises at its first
    attempt, whatever the store holds. *)
Lemma acquire_with_invalid_lease fuel self blocking timeout_arg w :
  timeout self <= 0 ->
  acquire (S fuel) self blocking timeout_arg w
  = Some (record (ev_set_nx (lock_name self) (lock_id self) (timeout self)
                    false) w,
          Raised invalid_expire_time).
Proof.
  intros Hlease. unfold Lock.acquire. cbn [acquire_loop].
  rewrite set_nx_refused by exact Hlease. reflexivity.
Qed.

(** A handle whose retry interval is negative: a blocking call on a held
    lock raises at its first retry. *)
Lemma acquire_with_negative_retry_interval fuel self timeout_arg w tok :
  0 < timeout self ->
  retry_interval self < 0 ->
  get w (lock_name self) = Some tok ->
  0 < max_wait self timeout_arg ->
  acquire (S fuel) self true timeout_arg w
  = Some (record (ev_set_nx (lock_name self) (lock_id self) (timeout self)
                    false) w,
          Raised (ValueError "sleep length must be non-negative")).
Proof.
  intros Hlease Hri Hheld Hwait. unfold Lock.acquire. cbn [acquire_loop].
  rewrite (set_nx_failed _ _ _ _ tok Hlease Hheld). cbn [negb record clock].
  destruct (Z.leb_spec (max_wait self timeout_arg) (clock w - clock w));
    [lia|].
  unfold sleep. destruct (Z.ltb_spec (retry_interval self) 0); [|lia].
  reflexivity.
Qed.

(** X10.  Mutual exclusion while the lease runs: once a handle has acquired
    a free lock, then at any time before the lease runs out the store holds
    its token, and a non-blocking [acquire] on the same lock name, by another
    handle or by the same one, with a positive lease of its own, fails at its
    first attempt and leaves the store as it is. *)
Theorem lock_excludes_while_lease_runs fuel fuel' a b blocking timeout_arg w t :
  get w (lock_name a) = None ->
  lock_name b = lock_name a ->
  0 < timeout b ->
  clock w <= t < clock w + timeout a ->
  exists w1,
    acquire (S fuel) a blocking timeout_arg w = Some (w1, Returned true)
    /\ get (at_time t w1) (lock_name a) = Some (lock_id a)
    /\ acquire (S fuel') b false None (at_time t w1)
       = Some (record (ev_set_nx (lock_name b) (lock_id b) (timeout b) false)
                 (at_time t w1), Returned false).
Proof.
  intros Hfree Hname Hlease Ht. exists (holding a w).
  assert (get (at_time t (holding a w)) (lock_name a) = Some (lock_id a))
    as Hheld.
  { rewrite get_holding. destruct (Z.ltb_spec t (clock w + timeout a));
      [reflexivity | lia]. }
  split; [apply acquire_free; [lia | exact Hfree]|]. split; [exact Hheld|].
  unfold Lock.acquire. cbn [acquire_loop].
  rewrite (set_nx_failed _ _ _ _ (lock_id a))
    by (first [exact Hlease | rewrite Hname; exact Hheld]).
  reflexivity.
Qed.

(** X11.  There is no renewal: a handle with a positive lease acquires a
    free lock, and from the moment the lease has run out the store no longer
    shows its token, its [release] returns false, and a non-blocking
    [acquire] by another handle on the same name, with a positive lease of
    its own, succeeds at once and stores that handle's token. *)
Theorem lock_is_lost_when_lease_runs_out fuel fuel' a b blocking timeout_arg
    w t :
  get w (lock_name a) = None ->
  lock_name b = lock_name a ->
  0 < timeout a ->
  0 < timeout b ->
  clock w + timeout a <= t ->
  exists w1 w2,
    acquire (S fuel) a blocking timeout_arg w = Some (w1, Returned true)
    /\ get (at_time t w1) (lock_name a) = None
    /\ snd (release a (at_time t w1)) = false
    /\ acquire (S fuel') b false None (at_time t w1) = Some (w2, Returned true)
    /\ get w2 (lock_name a) = Some (lock_id b).
Proof.
  intros Hfree Hname Hlease_a Hlease_b Ht.
  assert (get (at_time t (holding a w)) (lock_name a) = None) as Hgone.
  { rewrite get_holding. destruct (Z.ltb_spec t (clock w + timeout a));
      [lia | reflexivity]. }
  exists (holding a w), (holding b (at_time t (holding a w))).
  split; [apply acquire_free; assumption|]. split; [exact Hgone|].
  split.
  { rewrite release_spec, Hgone.
    rewrite bool_decide_eq_false_2 by discriminate. reflexivity. }
  split; [apply acquire_free; [exact Hlease_b | rewrite Hname; exact Hgone]|].
  rewrite <- Hname.
  change (holding b (at_time t (holding a w)))
    with (at_time t (holding b (at_time t (holding a w)))).
  rewrite get_holding. cbn [clock at_time].
  destruct (Z.ltb_spec t (t + timeout b)); [reflexivity | lia].
Qed.

(** X12.  Acquire and release within the lease is a round trip: [release]
    returns true and removes the lock's key, so that the lock reads free
    again, and a second [release] returns false and changes nothing. *)
Theorem acquire_then_release_frees_the_lock fuel a blocking timeout_arg w t :
  get w (lock_name a) = None ->
  clock w <= t < clock w + timeout a ->
  exists w1,
    acquire (S fuel) a blocking timeout_arg w = Some (w1, Returned true)
    /\ snd (release a (at_time t w1)) = true
    /\ redis (fst (release a (at_time t w1)))
       = delete (lock_name a) (redis w)
    /\ get (fst (release a (at_time t w1))) (lock_name a) = None
    /\ snd (release a (fst (release a (at_time t w1)))) = false
    /\ redis (fst (release a (fst (release a (at_time t w1)))))
       = redis (fst (release a (at_time t w1))).
Proof.
  intros Hfree Ht. exists (holding a w).
  assert (get (at_time t (holding a w)) (lock_name a) = Some (lock_id a))
    as Hheld.
  { rewrite get_holding. destruct (Z.ltb_spec t (clock w + timeout a));
      [reflexivity | lia]. }
  split; [apply acquire_free; [lia | exact Hfree]|].
  assert (release a (at_time t (holding a w))
          = ({| redis := delete (lock_name a) (redis w); clock := t;
                trace := trace (holding a w)
                         ++ [ev_eval (lock_name a) (lock_id a) true;
                             ev_log "lock_released" (lock_name a)] |}, true))
    as Hrel.
  { rewrite release_spec, bool_decide_eq_true_2 by exact Hheld.
    unfold at_time, holding. cbn [redis clock trace].
    rewrite delete_insert_eq. reflexivity. }
  rewrite Hrel. cbn [fst snd redis].
  assert (get {| redis := delete (lock_name a) (redis w); clock := t;
                 trace := trace (holding a w)
                          ++ [ev_eval (lock_name a) (lock_id a) true;
                              ev_log "lock_released" (lock_name a)] |}
            (lock_name a) = None) as Hgone.
  { unfold get. cbn [redis]. rewrite lookup_delete_eq. reflexivity. }
  repeat split; try exact Hgone.
  - rewrite release_spec, Hgone.
    rewrite bool_decide_eq_false_2 by discriminate. reflexivity.
  - rewrite release_spec, Hgone.
    rewrite bool_decide_eq_false_2 by discriminate. reflexivity.
Qed.

Lemma set_nx_other_key key value ex w other :
  other ≠ key ->
  redis (fst (set_nx key value ex w)) !! other = redis w !! other.
Proof.
  intros Hne. unfold set_nx. destruct (Z.leb ex 0); [reflexivity|].
  destruct (get w key); cbn [fst redis record];
    [reflexivity|]. apply lookup_insert_ne. congruence.
Qed.

Lemma acquire_loop_other_key self blocking start_time max_wait key fuel :
  key ≠ lock_name self ->
  leave_alone key others ->
  forall w w' r,
    acquire_loop others lag fuel self blocking start_time max_wait w
    = Some (w', r) ->
    redis w' !! key = redis w !! key.
Proof.
  intros Hne Halone.
  induction fuel as [|fuel IH]; intros w w' r Hrun; [discriminate|].
  cbn [acquire_loop] in Hrun.
  pose proof (set_nx_other_key (lock_name self) (lock_id self) (timeout self)
                w key Hne) as Hset.
  destruct (set_nx (lock_name self) (lock_id self) (timeout self) w)
    as [w1 [ok|e]]; cbn [fst] in Hset;
    [|injection Hrun as <- _; exact Hset].
  destruct ok; [injection Hrun as <- _; exact Hset|].
  destruct (negb blocking); [injection Hrun as <- _; exact Hset|].
  destruct (Z.leb max_wait (clock w1 - start_time));
    [injection Hrun as <- _; exact Hset|].
  unfold sleep in Hrun.
  destruct (Z.ltb (retry_interval self) 0);
    [injection Hrun as <- _; exact Hset|].
  rewrite (IH _ _ _ Hrun). cbn [redis].
  rewrite Halone. exact Hset.
Qed.

(** X13.  A handle only ever touches its own key: [acquire], however it
    ends, and [release] leave the entry of every other key of the store as
    it was (the other clients leaving that key alone meanwhile). *)
Theorem lock_touches_only_its_key fuel self blocking timeout_arg w w' r key :
  key ≠ lock_name self ->
  leave_alone key others ->
  acquire fuel self blocking timeout_arg w = Some (w', r) ->
  redis w' !! key = redis w !! key
  /\ redis (fst (release self w')) !! key = redis w !! key.
Proof.
  intros Hne Halone Hrun.
  pose proof (acquire_loop_other_key self blocking _ _ key fuel Hne Halone
                _ _ _ Hrun) as Hacq.
  split; [exact Hacq|].
  rewrite release_spec. destruct (bool_decide _); cbn [fst redis record].
  - rewrite lookup_delete_ne by congruence. exact Hacq.
  - exact Hacq.
Qed.


End MoreLockProperties.

(** * Further properties of the warehouse writes *)

Import WarehouseNotions.

Section MoreWarehouseProperties.

(** No page is empty and none is longer than the page size. *)
Lemma paginate_page_sizes {A} (page_size : nat) (seq : list A) :
  forall page,
    (length page < page_size)%nat ->
    Forall (fun p => p ≠ [] /\ (length p <= page_size)%nat)
      (_paginate page_size page seq).
Proof.
  induction seq as [|x seq IH]; intros page Hlen.
  - simpl. destruct page; [constructor|].
    repeat constructor; [discriminate | lia].
  - rewrite paginate_step.
    assert (length (page ++ [x]) = S (length page)) as Hsnoc
      by (rewrite length_app; simpl; lia).
    destruct (Nat.eqb_spec (length (page ++ [x])) page_size) as [Heq|Hne].
    + constructor.
      * split; [destruct page; discriminate | lia].
      * apply IH. simpl. lia.
    + apply IH. lia.
Qed.

Lemma Forall_concat_pages {A} (P : A -> Prop) (pages : list (list A)) :
  Forall P (concat pages) -> Forall (Forall P) pages.
Proof.
  induction pages as [|p pages IH]; simpl; intros H; [constructor|].
  apply Forall_app in H as [Hp Hrest]. constructor; auto.
Qed.

Variable server_message : sqlstate -> string.
Variable config_batch_size : Z.

Local Abbreviation run_statement := (run_statement server_message).
Local Abbreviation run_statements := (run_statements server_message).
Local Abbreviation execute := (Warehouse.execute server_message).
Local Abbreviation execute_pages := (execute_pages server_message).
Local Abbreviation execute_batch := (execute_batch server_message).
Local Abbreviation bulk_insert := (bulk_insert server_message config_batch_size).
Local Abbreviation upsert := (upsert server_message config_batch_size).

(** An insert that the server accepts affects one row or, on a conflict,
    none. *)
Lemma run_insert tables tbl columns st tables' n :
  is_insert tbl columns st ->
  run_statement tables st = Returned (tables', n) ->
  n = 0 \/ n = 1.
Proof.
  intros [args ->]. simpl.
  destruct columns as [|c columns]; [discriminate|].
  destruct (tables !! tbl) as [t|]; [|discriminate].
  destruct (refuses t _); [discriminate|].
  destruct (conflicts t _); intros [= _ <-]; auto.
Qed.

Lemma run_inserts tbl columns sts :
  Forall (is_insert tbl columns) sts ->
  forall tables rc tables' n,
    run_statements tables rc sts = Returned (tables', n) ->
    sts ≠ [] -> n = 0 \/ n = 1.
Proof.
  induction 1 as [|st sts Hst Hsts IH]; intros tables rc tables' n Hrun Hne;
    [contradiction|].
  cbn [Warehouse.run_statements] in Hrun.
  destruct (run_statement tables st) as [[tables1 n1]|e] eqn:Hfirst;
    [|discriminate].
  destruct sts as [|st2 sts].
  - injection Hrun as _ <-. apply (run_insert _ _ _ _ _ _ Hst Hfirst).
  - apply (IH _ _ _ _ Hrun). discriminate.
Qed.

(** Pages of inserts that are all accepted: every page is received, and the
    [rowcount] left is that of the last statement. *)
Lemma execute_inserts tbl columns pages :
  Forall (fun p => p ≠ [] /\ Forall (is_insert tbl columns) p) pages ->
  forall c c',
    execute_pages pages c = (c', Returned tt) ->
    calls c' = calls c ++ pages
    /\ (pages ≠ [] -> rowcount c' = 0 \/ rowcount c' = 1).
Proof.
  induction 1 as [|p pages [Hne Hp] Hpages IH]; intros c c' Hrun.
  - injection Hrun as <-. rewrite app_nil_r. split; [reflexivity | contradiction].
  - cbn [Warehouse.execute_pages] in Hrun. unfold Warehouse.execute in Hrun.
    destruct p as [|st p]; [contradiction|].
    destruct (run_statements (tables c) (rowcount c) (st :: p))
      as [[tables1 n1]|e] eqn:Hpage; [|discriminate].
    destruct (IH _ _ Hrun) as [Hcalls Hrc]. cbn [calls rowcount] in *.
    split; [rewrite Hcalls, <- app_assoc; reflexivity|].
    intros _. destruct pages as [|q pages]; [|apply Hrc; discriminate].
    injection Hrun as <-. cbn [rowcount].
    apply (run_inserts _ _ _ Hp _ _ _ _ Hpage). discriminate.
Qed.

(** X15.  [bulk_insert] of a non-empty list of rows with a batch size of at
    least one, whenever it returns: every row was sent once, in order, as an
    insert over the keys of the first row, in calls of at most [batch_size]
    statements, none of them empty; and the value returned is
    [cursor.rowcount] after the last call, 0 or 1 whatever the number of
    rows. *)
Theorem bulk_insert_sends_every_row_once data table_name batch_size s first
    rest n :
  data = first :: rest ->
  0 < batch_size ->
  snd (bulk_insert data table_name (Some batch_size) s) = Returned n ->
  exists pages,
    received (fst (bulk_insert data table_name (Some batch_size) s))
    = received s ++ pages
    /\ concat pages
       = map (insert_do_nothing table_name (map fst first))
           (values_of (map fst first) data)
    /\ Forall (fun p => p ≠ [] /\ (length p <= Z.to_nat batch_size)%nat) pages
    /\ (n = 0 \/ n = 1).
Proof.
  intros -> Hsize.
  set (columns := map fst first).
  set (sts := map (insert_do_nothing table_name columns)
                (values_of columns (first :: rest))).
  set (pages := _paginate (Z.to_nat batch_size) [] sts).
  assert (Forall (fun p => p ≠ [] /\ (length p <= Z.to_nat batch_size)%nat)
            pages) as Hsizes
    by (apply paginate_page_sizes; simpl; lia).
  assert (Forall (is_insert table_name columns) sts) as Hsts.
  { subst sts. apply Forall_forall. intros st Hst.
    apply list_elem_of_In, in_map_iff in Hst as (args & <- & _).
    exists args. reflexivity. }
  assert (Forall (fun p => p ≠ [] /\ Forall (is_insert table_name columns) p)
            pages) as Hpages.
  { pose proof (Forall_concat_pages (is_insert table_name columns) pages)
      as Hc.
    unfold pages in Hc at 1. rewrite paginate_concat in Hc.
    specialize (Hc Hsts).
    apply Forall_forall. intros p Hp. split.
    - rewrite Forall_forall in Hsizes. apply (Hsizes p Hp).
    - rewrite Forall_forall in Hc. apply (Hc p Hp). }
  assert (pages ≠ []) as Hsome.
  { subst pages sts. cbn [values_of map].
    destruct (paginate_first (Z.to_nat batch_size)
                (insert_do_nothing table_name columns
                   (map (row_get first) columns))
                (map (insert_do_nothing table_name columns)
                   (map (fun r => map (row_get r) columns) rest)))
      as (p & more & ->). discriminate. }
  unfold Warehouse.bulk_insert, db_bulk_insert, get_connection,
    Warehouse.execute_batch.
  destruct (Z.eqb_spec batch_size 0); [lia|].
  destruct (Z.leb_spec batch_size 0); [lia|].
  fold columns. fold sts. fold pages.
  change {| tables := committed s; rowcount := -1; calls := [] |}
    with (fresh_connection s).
  destruct (execute_pages pages (fresh_connection s)) as [c' [[]|e]] eqn:Hexec;
    [|destruct (is_exception e); discriminate].
  destruct (execute_inserts table_name columns pages Hpages _ _ Hexec)
    as [Hcalls Hrc].
  cbn [fst snd received write_log]. intros [= <-].
  exists pages. rewrite Hcalls. cbn [calls fresh_connection app].
  split; [reflexivity|]. split; [apply paginate_concat|].
  split; [exact Hsizes | apply Hrc, Hsome].
Qed.

(** X16.  A write that fails is rolled back: whatever the body of a
    connection did to the tables before it raised, the committed tables are
    those from before, and the calls it made were still received; in
    particular the committed tables are unchanged after a [bulk_insert] or an
    [upsert] that raises. *)
Theorem failed_write_is_rolled_back data df table_name batch_size
    conflict_columns update_columns s :
  (forall A (body : Connection -> Connection * outcome A),
      match get_connection body s with
      | (s', Raised e) =>
        committed s' = committed s
        /\ received s'
           = received s ++ calls (fst (body (fresh_connection s)))
        /\ snd (body (fresh_connection s)) = Raised e
      | (s', Returned a) =>
        committed s' = tables (fst (body (fresh_connection s)))
        /\ snd (body (fresh_connection s)) = Returned a
      end)
  /\ match bulk_insert data table_name batch_size s with
     | (s', Raised _) => committed s' = committed s
     | (_, Returned _) => True
     end
  /\ match upsert df table_name conflict_columns update_columns s with
     | (s', Raised _) => committed s' = committed s
     | (_, Returned _) => True
     end.
Proof.
  split; [|split].
  - intros A body. unfold get_connection, fresh_connection, log_exception.
    destruct (body _) as [conn [a|e]]; [repeat split|].
    destruct (is_exception e); repeat split.
  - unfold Warehouse.bulk_insert, db_bulk_insert.
    destruct data as [|first rest]; [exact I|].
    unfold get_connection, log_exception.
    destruct (Warehouse.execute_batch _ _ _ _ _) as [conn [[]|e]]; [exact I|].
    destruct (is_exception e); reflexivity.
  - unfold Warehouse.upsert, get_connection, log_exception.
    destruct (Warehouse.execute_batch _ _ _ _ _) as [conn [[]|e]]; [exact I|].
    destruct (is_exception e); reflexivity.
Qed.

(** X17.  [upsert] of a dataset without rows sends nothing and does not
    fail, whatever the conflict columns: it returns the [rowcount] of a
    cursor that has executed nothing, -1. *)
Theorem upsert_of_no_rows_sends_nothing df table_name conflict_columns
    update_columns s :
  index_len df = 0%nat ->
  0 < config_batch_size ->
  snd (upsert df table_name conflict_columns update_columns s) = Returned (-1)
  /\ received (fst (upsert df table_name conflict_columns update_columns s))
     = received s
  /\ committed (fst (upsert df table_name conflict_columns update_columns s))
     = committed s
  /\ Warehouse.log
       (fst (upsert df table_name conflict_columns update_columns s))
     = Warehouse.log s ++ [("upsert_successful", table_name)].
Proof.
  intros Hrows Hsize.
  unfold Warehouse.upsert, to_dict_records, Warehouse.execute_batch,
    get_connection.
  rewrite Hrows. destruct (Z.leb_spec config_batch_size 0); [lia|].
  cbn. rewrite app_nil_r. repeat split.
Qed.

End MoreWarehouseProperties.

(** * Properties of the load stage *)

Import Loading.

Section LoadProperties.

Variable others : Z -> gmap string entry -> gmap string entry.
Variable lag : Z -> Z.
Variable config_batch_size : Z.
Variable to_sql :
  DataFrame -> string -> option string -> string -> Z -> Server ->
  Server * outcome unit.
Variable write_seconds : Z.

Local Abbreviation load :=
  (load others lag config_batch_size to_sql write_seconds).
Local Abbreviation _perform_load := (_perform_load config_batch_size to_sql).
Local Abbreviation locked_write :=
  (locked_write config_batch_size to_sql write_seconds).
Local Abbreviation warehouse_execute :=
  (warehouse_execute others lag config_batch_size to_sql write_seconds).

(** X18.  [BaseLoader.execute] around any [load]: what [load] returns is
    returned and stored as [loaded_count], with [start_time] stamped at entry
    and [end_time] at the end of the load; when [load] raises, its exception
    is handed on with the state [load] left, [start_time] is stamped, and
    [end_time] and [loaded_count] stay as they were. *)
Theorem execute_records_the_load self (load : loading) st :
  match load (snd (pre_load self st)), execute self load st with
  | Some (st', Returned count), Some (self', st'', r) =>
    r = Returned count
    /\ fst st'' = fst st'
    /\ loaded_count self' = count
    /\ start_time self' = Some (clock (fst st))
    /\ end_time self' = Some (clock (fst st'))
    /\ duration self' = Some (clock (fst st') - clock (fst st))
  | Some (st', Raised e), Some (self', st'', r) =>
    r = Raised e
    /\ st'' = st'
    /\ loaded_count self' = loaded_count self
    /\ start_time self' = Some (clock (fst st))
    /\ end_time self' = end_time self
  | None, None => True
  | _, _ => False
  end.
Proof.
  unfold execute. cbn [pre_load snd fst].
  destruct (load _) as [[st' [count|e]]|]; cbn; repeat split.
Qed.

(** X19.  [load] without a table name (none given, or an empty one) raises
    [ValueError] before anything else: neither the lock store nor the server
    is touched; through [execute], the loader has a [start_time] and no
    [end_time]. *)
Theorem load_requires_table_name fuel uuid df kwargs w s :
  kw_table_name kwargs = None \/ kw_table_name kwargs = Some "" ->
  load fuel uuid df kwargs (w, s)
  = Some ((w, s), Raised (ValueError "table_name is required"))
  /\ warehouse_execute fuel uuid df kwargs (w, s)
     = Some ({| loader_name := "warehouse_loader"; loaded_count := 0;
                start_time := Some (clock w); end_time := None |},
             (w, write_log "load_started" "warehouse_loader" s),
             Raised (ValueError "table_name is required")).
Proof.
  intros Hname.
  assert (forall st, load fuel uuid df kwargs st
                     = Some (st, Raised (ValueError "table_name is required")))
    as Hload.
  { intros [w' s']. unfold Loading.load.
    destruct Hname as [-> | ->]; reflexivity. }
  split; [apply Hload|].
  unfold Loading.warehouse_execute, execute. cbn [pre_load].
  rewrite Hload. reflexivity.
Qed.

Lemma load_with_lock fuel uuid df kwargs table_name w s :
  kw_table_name kwargs = Some table_name ->
  table_name ≠ "" ->
  default true (kw_use_lock kwargs) = true ->
  load fuel uuid df kwargs (w, s)
  = match
      context others lag fuel (load_lock uuid table_name kwargs) true None
        (locked_write df table_name (default "append" (kw_if_exists kwargs)) s)
        w
    with
    | None => None
    | Some (w, Raised e) => Some ((w, s), Raised e)
    | Some (w, Returned (s, r)) => Some ((w, s), r)
    end.
Proof.
  intros Hname Hne Hlock. unfold Loading.load. rewrite Hname, Hlock.
  destruct table_name; [contradiction | reflexivity].
Qed.

(** X20.  [load] with the lock (the default) when the lock cannot be had:
    it raises the error of the scoped acquisition and attempts no write: the
    server is exactly as it was. *)
Theorem load_without_the_lock_writes_nothing fuel uuid df kwargs table_name
    w s w1 :
  kw_table_name kwargs = Some table_name ->
  table_name ≠ "" ->
  default true (kw_use_lock kwargs) = true ->
  acquire others lag fuel (load_lock uuid table_name kwargs) true None w
  = Some (w1, Returned false) ->
  load fuel uuid df kwargs (w, s)
  = Some ((w1, s),
          Raised (RuntimeError
                    ("Failed to acquire lock: "
                     +:+ lock_name (load_lock uuid table_name kwargs)))).
Proof.
  intros Hname Hne Hlock Hacq.
  rewrite (load_with_lock _ _ _ _ _ _ _ Hname Hne Hlock).
  unfold context. rewrite Hacq. reflexivity.
Qed.

(** Under the lock, [load] is the write followed by [release]. *)
Lemma load_after_acquire fuel uuid df kwargs table_name w s w1 :
  kw_table_name kwargs = Some table_name ->
  table_name ≠ "" ->
  default true (kw_use_lock kwargs) = true ->
  acquire others lag fuel (load_lock uuid table_name kwargs) true None w
  = Some (w1, Returned true) ->
  load fuel uuid df kwargs (w, s)
  = Some ((fst (release (load_lock uuid table_name kwargs)
                  (written write_seconds w1)),
           fst (_perform_load df table_name
                  (default "append" (kw_if_exists kwargs)) s)),
          snd (_perform_load df table_name
                 (default "append" (kw_if_exists kwargs)) s)).
Proof.
  intros Hname Hne Hlock Hacq.
  rewrite (load_with_lock _ _ _ _ _ _ _ Hname Hne Hlock).
  unfold context. rewrite Hacq. cbn [negb].
  unfold Loading.locked_write.
  destruct (release _ (written write_seconds w1)) as [w2 released]. cbn [fst].
  destruct (_perform_load _ _ _ _). reflexivity.
Qed.

(** X21.  [load] once the lock is acquired: the write is done, [release] is
    sent after it whether the write returned or raised, and the call ends as
    the write ended: with the number of rows of the frame when [to_sql]
    returned, with the exception of [to_sql] when it raised.  With
    [use_lock=False] the same write is done and the lock store is not
    touched. *)
Theorem load_writes_then_releases fuel uuid df kwargs table_name w s w1 :
  kw_table_name kwargs = Some table_name ->
  table_name ≠ "" ->
  acquire others lag fuel (load_lock uuid table_name kwargs) true None w
  = Some (w1, Returned true) ->
  (default true (kw_use_lock kwargs) = true ->
   load fuel uuid df kwargs (w, s)
   = Some ((fst (release (load_lock uuid table_name kwargs)
                   (written write_seconds w1)),
            fst (_perform_load df table_name
                   (default "append" (kw_if_exists kwargs)) s)),
           snd (_perform_load df table_name
                  (default "append" (kw_if_exists kwargs)) s)))
  /\ (default true (kw_use_lock kwargs) = false ->
      load fuel uuid df kwargs (w, s)
      = Some ((w,
               fst (_perform_load df table_name
                      (default "append" (kw_if_exists kwargs)) s)),
              snd (_perform_load df table_name
                     (default "append" (kw_if_exists kwargs)) s)))
  /\ (exists deleted rest,
         trace (fst (release (load_lock uuid table_name kwargs)
                         (written write_seconds w1)))
         = trace w1
           ++ ev_eval (lock_name (load_lock uuid table_name kwargs)) uuid
                deleted :: rest)
  /\ snd (_perform_load df table_name
            (default "append" (kw_if_exists kwargs)) s)
     = match
         snd (to_sql df (sql_name table_name) (sql_schema table_name)
                (default "append" (kw_if_exists kwargs)) config_batch_size s)
       with
       | Returned _ => Returned (len df)
       | Raised e => Raised e
       end.
Proof.
  intros Hname Hne Hacq. split; [|split; [|split]].
  - intros Hlock.
    apply (load_after_acquire _ _ _ _ _ _ _ _ Hname Hne Hlock Hacq).
  - intros Hlock. unfold Loading.load. rewrite Hname, Hlock.
    destruct table_name; [contradiction|].
    destruct (_perform_load _ _ _ _). reflexivity.
  - apply (release_trace (load_lock uuid table_name kwargs)
             (written write_seconds w1)).
  - unfold Loading._perform_load, load_dataframe.
    destruct (to_sql _ _ _ _ _ _) as [s' [[]|e]]; reflexivity.
Qed.

(** X22.  The lease is not renewed during the write: when [load] takes a
    free lock, a write shorter than the lease of 300 seconds ends with the
    lock deleted by [release], and a write of 300 seconds or more ends with
    the lease already run out, [release] deleting nothing. *)
Theorem load_outlasting_the_lease_releases_nothing fuel uuid df kwargs
    table_name w s :
  kw_table_name kwargs = Some table_name ->
  table_name ≠ "" ->
  default true (kw_use_lock kwargs) = true ->
  get w (lock_name (load_lock uuid table_name kwargs)) = None ->
  exists w2 s2 r,
    load (S fuel) uuid df kwargs (w, s) = Some ((w2, s2), r)
    /\ evals (trace w2)
       = evals (trace w)
         ++ [(lock_name (load_lock uuid table_name kwargs), uuid,
              Z.ltb write_seconds 300)]
    /\ get w2 (lock_name (load_lock uuid table_name kwargs)) = None
    /\ clock w2 = clock w + write_seconds.
Proof.
  intros Hname Hne Hlock Hfree.
  set (lock := load_lock uuid table_name kwargs) in *.
  assert (0 < timeout lock) as Hlease by reflexivity.
  pose proof (acquire_free others lag lock true None fuel w Hlease Hfree)
    as Hacq.
  pose proof (load_after_acquire (S fuel) uuid df kwargs table_name w s
                (holding lock w) Hname Hne Hlock Hacq) as Hload.
  fold lock in Hload.
  eexists _, _, _. split; [exact Hload|].
  assert (get (written write_seconds (holding lock w)) (lock_name lock)
          = if Z.ltb write_seconds 300 then Some uuid else None) as Hget.
  { change (written write_seconds (holding lock w))
      with (at_time (clock w + write_seconds) (holding lock w)).
    rewrite get_holding. change (timeout lock) with 300.
    destruct (Z.ltb_spec (clock w + write_seconds) (clock w + 300));
      destruct (Z.ltb_spec write_seconds 300); try lia; reflexivity. }
  rewrite release_spec. change (lock_id lock) with uuid. rewrite Hget.
  destruct (Z.ltb write_seconds 300).
  - rewrite bool_decide_eq_true_2 by reflexivity. cbn [fst].
    unfold get, evals. cbn [redis clock trace written holding].
    rewrite lookup_delete_eq, !omap_app. cbn. rewrite app_nil_r.
    repeat split.
  - rewrite bool_decide_eq_false_2 by discriminate. cbn [fst].
    unfold evals. cbn [trace record written holding].
    rewrite !omap_app. cbn. rewrite app_nil_r.
    split; [reflexivity|]. split; [|reflexivity].
    rewrite get_record. exact Hget.
Qed.

End LoadProperties.

(** * More worked examples *)

Import Examples MoreExamples.

(** An instance of X10: [handle_a] holds a lease of 3 seconds from time 0;
    [handle_b] tries at time 2. *)
Lemma handle_b_is_excluded :
  exists w1,
    acquire alone punctual 1 handle_a true None empty_world
    = Some (w1, Returned true)
    /\ get (at_time 2 w1) (lock_name handle_a) = Some (lock_id handle_a)
    /\ acquire alone punctual 1 handle_b false None (at_time 2 w1)
       = Some (record (ev_set_nx (lock_name handle_b) (lock_id handle_b)
                         (timeout handle_b) false) (at_time 2 w1),
               Returned false).
Proof.
  apply (lock_excludes_while_lease_runs alone punctual 0 0 handle_a handle_b
           true None empty_world 2).
  - reflexivity.
  - reflexivity.
  - reflexivity.
  - simpl. lia.
Defined.

(** An instance of X11: the same lease, seen at time 3. *)
Lemma handle_a_loses_the_lock :
  exists w1 w2,
    acquire alone punctual 1 handle_a true None empty_world
    = Some (w1, Returned true)
    /\ get (at_time 3 w1) (lock_name handle_a) = None
    /\ snd (release handle_a (at_time 3 w1)) = false
    /\ acquire alone punctual 1 handle_b false None (at_time 3 w1)
       = Some (w2, Returned true)
    /\ get w2 (lock_name handle_a) = Some (lock_id handle_b).
Proof.
  apply (lock_is_lost_when_lease_runs_out alone punctual 0 0 handle_a handle_b
           true None empty_world 3).
  - reflexivity.
  - reflexivity.
  - reflexivity.
  - reflexivity.
  - simpl. lia.
Defined.

(** An instance of X12: acquire at time 0, release at time 1. *)
Lemma handle_a_round_trip :
  exists w1,
    acquire alone punctual 1 handle_a true None empty_world
    = Some (w1, Returned true)
    /\ snd (release handle_a (at_time 1 w1)) = true
    /\ redis (fst (release handle_a (at_time 1 w1)))
       = delete (lock_name handle_a) (redis empty_world)
    /\ get (fst (release handle_a (at_time 1 w1))) (lock_name handle_a) = None
    /\ snd (release handle_a (fst (release handle_a (at_time 1 w1)))) = false
    /\ redis (fst (release handle_a (fst (release handle_a (at_time 1 w1)))))
       = redis (fst (release handle_a (at_time 1 w1))).
Proof.
  apply (acquire_then_release_frees_the_lock alone punctual 0 handle_a true
           None empty_world 1).
  - reflexivity.
  - simpl. lia.
Defined.

(** An instance of X13: the key of another table's lock while [handle_a]
    waits in vain. *)
Lemma other_locks_are_untouched :
  redis after_timeout !! "etl:lock:trades" = redis held_by_b !! "etl:lock:trades"
  /\ redis (fst (release handle_a after_timeout)) !! "etl:lock:trades"
     = redis held_by_b !! "etl:lock:trades".
Proof.
  apply (lock_touches_only_its_key alone punctual 10 handle_a true None
           held_by_b after_timeout (Returned false) "etl:lock:trades").
  - discriminate.
  - intros t m. reflexivity.
  - reflexivity.
Defined.


(** An instance of X15: the five rows in batches of two. *)
Lemma five_rows_in_batches_of_two :
  exists pages,
    received (fst (bulk_insert messages 10000 five_rows "prices" (Some 2)
                     empty_prices))
    = received empty_prices ++ pages
    /\ concat pages
       = map (insert_do_nothing "prices" (map fst (quote_row 1 10)))
           (values_of (map fst (quote_row 1 10)) five_rows)
    /\ Forall (fun p => p ≠ [] /\ (length p <= Z.to_nat 2)%nat) pages
    /\ (1 = 0 \/ 1 = 1).
Proof.
  apply (bulk_insert_sends_every_row_once messages 10000 five_rows "prices" 2
           empty_prices (quote_row 1 10)
           [quote_row 2 20; quote_row 3 30; quote_row 4 40; quote_row 5 50] 1).
  - reflexivity.
  - reflexivity.
  - vm_compute. reflexivity.
Defined.

(** An instance of X17: an upsert of no rows, with no conflict columns. *)
Lemma upsert_of_empty_frame :
  snd (upsert messages 10000 no_rows "prices" [] None empty_prices)
  = Returned (-1)
  /\ received (fst (upsert messages 10000 no_rows "prices" [] None
                      empty_prices))
     = received empty_prices
  /\ committed (fst (upsert messages 10000 no_rows "prices" [] None
                       empty_prices))
     = committed empty_prices
  /\ Warehouse.log
       (fst (upsert messages 10000 no_rows "prices" [] None empty_prices))
     = Warehouse.log empty_prices ++ [("upsert_successful", "prices")].
Proof.
  apply (upsert_of_no_rows_sends_nothing messages 10000 no_rows "prices" []
           None empty_prices); reflexivity.
Defined.

(** An instance of X19: a load without [table_name]. *)
Lemma load_without_table_name :
  load alone punctual 10000 append_rows 5 10 "token-a" one_price
    {| kw_table_name := None; kw_if_exists := None; kw_use_lock := None;
       kw_lock_name := None |} (empty_world, empty_prices)
  = Some ((empty_world, empty_prices),
          Raised (ValueError "table_name is required"))
  /\ warehouse_execute alone punctual 10000 append_rows 5 10 "token-a"
       one_price
       {| kw_table_name := None; kw_if_exists := None; kw_use_lock := None;
          kw_lock_name := None |} (empty_world, empty_prices)
     = Some ({| loader_name := "warehouse_loader"; loaded_count := 0;
                start_time := Some (clock empty_world); end_time := None |},
             (empty_world,
              write_log "load_started" "warehouse_loader" empty_prices),
             Raised (ValueError "table_name is required")).
Proof.
  apply (load_requires_table_name alone punctual 10000 append_rows 5 10
           "token-a" one_price).
  left. reflexivity.
Defined.

(** An instance of X20: the lock for [prices] is held by another run. *)
Lemma load_gives_up_without_writing :
  load alone punctual 10000 append_rows 5 400 "token-a" one_price load_prices
    (load_lock_taken, empty_prices)
  = Some ((load_timed_out, empty_prices),
          Raised (RuntimeError
                    ("Failed to acquire lock: "
                     +:+ lock_name (load_lock "token-a" "prices" load_prices)))).
Proof.
  apply (load_without_the_lock_writes_nothing alone punctual 10000 append_rows
           5 400 "token-a" one_price load_prices "prices" load_lock_taken
           empty_prices load_timed_out).
  - reflexivity.
  - discriminate.
  - reflexivity.
  - vm_compute. reflexivity.
Defined.

(** An instance of X21: the lock is free and the table exists. *)
Lemma load_of_one_price :
  load alone punctual 10000 append_rows 5 1 "token-a" one_price load_prices
    (empty_world, empty_prices)
  = Some ((fst (release (load_lock "token-a" "prices" load_prices)
                  (written 5
                     (holding (load_lock "token-a" "prices" load_prices)
                        empty_world))),
           fst (_perform_load 10000 append_rows one_price "prices"
                  (default "append" (kw_if_exists load_prices)) empty_prices)),
          snd (_perform_load 10000 append_rows one_price "prices"
                 (default "append" (kw_if_exists load_prices)) empty_prices)).
Proof.
  apply (proj1 (load_writes_then_releases alone punctual 10000 append_rows 5 1
                  "token-a" one_price load_prices "prices" empty_world
                  empty_prices
                  (holding (load_lock "token-a" "prices" load_prices)
                     empty_world)
                  eq_refl ltac:(discriminate) eq_refl)).
  reflexivity.
Defined.

(** An instance of X22: a write of 301 seconds under the lease of 300. *)
Lemma load_of_301_seconds :
  exists w2 s2 r,
    load alone punctual 10000 append_rows 301 1 "token-a" one_price load_prices
      (empty_world, empty_prices) = Some ((w2, s2), r)
    /\ evals (trace w2)
       = evals (trace empty_world)
         ++ [(lock_name (load_lock "token-a" "prices" load_prices), "token-a",
              Z.ltb 301 300)]
    /\ get w2 (lock_name (load_lock "token-a" "prices" load_prices)) = None
    /\ clock w2 = clock empty_world + 301.
Proof.
  apply (load_outlasting_the_lease_releases_nothing alone punctual 10000
           append_rows 301 0 "token-a" one_price load_prices "prices"
           empty_world empty_prices).
  - reflexivity.
  - discriminate.
  - reflexivity.
  - reflexivity.
Defined.
